(** * Open File Path in Default Terminal: a shallow embedding

    The extension exists in two variants:

    - the cascading variant ([Cascade]): [openSystemTerminal] probes a
      platform-specific sequence of terminal emulators through
      [spawnPromise] and [activate] falls back to the integrated terminal;
    - the minimal variant ([Minimal]): [openAlacrittyTmux] spawns one fixed
      emulator and [activate] reports a failure to the user.

    Both are asynchronous JavaScript.  The embedding makes the host
    (operating system, Node runtime, editor) an explicit record [host], the
    observable actions of the main control flow an ordered [trace] of
    [effect]s, and the race between the child's 'error' event and the timer
    a small state machine over the callbacks the event loop dispatches. *)

From Stdlib Require Import String Ascii List ZArith Bool Arith Lia.
Import ListNotations.
Open Scope string_scope.
Open Scope list_scope.

(** ** Strings *)

(** The double-quote character that the template literals place around the
    interpolated directory. *)
Definition dquote : string := String "034"%char EmptyString.

(** [contains needle s]: [needle] occurs in [s] as a contiguous substring. *)
Definition contains (needle s : string) : Prop :=
  exists pre post, s = (pre ++ needle ++ post)%string.

(** ** The host environment *)

(** What a call of [child_process.spawn] does, as far as the extension can
    observe it.  Either the call throws synchronously, or it returns a child
    process object.  A child may later emit an 'error' event, [error_at]
    milliseconds after the call; when that instant coincides with the expiry
    of a timer, [tie_error_first] says which callback the event loop
    dispatches first. *)
Inductive spawn_behaviour : Type :=
| SpawnThrows
| SpawnChild (error_at : option Z) (tie_error_first : bool).

(** [vscode.Uri], [vscode.TextDocument] and [vscode.TextEditor], reduced to
    the fields the extension reads. *)
Record Uri : Type := { fsPath : string }.
Record TextDocument : Type := { uri : Uri }.
Record TextEditor : Type := { document : TextDocument }.

(** The imports of the extension.  [spawn] is indexed by the number of
    spawn calls made before, so that a host may answer the same command
    differently at different times. *)
Record host : Type := {
  platform : string;                       (* os.platform() *)
  dirname : string -> string;              (* path.dirname *)
  spawn : nat -> string -> list string -> spawn_behaviour;
  activeTextEditor : option TextEditor;    (* vscode.window.activeTextEditor *)
  isDirectory : string -> bool             (* the file system; never consulted *)
}.

(** ** Observable effects *)

(** The options object [{ detached: true, stdio: 'ignore' }]. *)
Record spawn_options : Type := { detached : bool; stdio : string }.

Inductive effect : Type :=
| Spawn (cmd : string) (args : list string) (opts : spawn_options)
| OnError                                   (* child.on('error', reject) *)
| SetTimeout (ms : Z)
| CreateTerminal (name : string) (cwd : string)
| TerminalShow (preserveFocus : bool)
| ShowErrorMessage (msg : string)
| ShowInformationMessage (msg : string).

Definition trace : Type := list effect.

Definition is_spawn (e : effect) : bool :=
  match e with Spawn _ _ _ => true | _ => false end.

(** Number of spawn calls recorded in a trace. *)
Definition spawn_count (tr : trace) : nat :=
  List.length (filter is_spawn tr).

(** The (command, arguments) pairs of the spawn calls of a trace, in order. *)
Fixpoint spawn_calls (tr : trace) : list (string * list string) :=
  match tr with
  | [] => []
  | Spawn c a _ :: tr' => (c, a) :: spawn_calls tr'
  | _ :: tr' => spawn_calls tr'
  end.

(** The delays of the timers registered in a trace, in order. *)
Fixpoint timeouts (tr : trace) : list Z :=
  match tr with
  | [] => []
  | SetTimeout ms :: tr' => ms :: timeouts tr'
  | _ :: tr' => timeouts tr'
  end.

(** The messages and terminals shown to the user, in order. *)
Definition is_ui (e : effect) : bool :=
  match e with
  | CreateTerminal _ _ | TerminalShow _
  | ShowErrorMessage _ | ShowInformationMessage _ => true
  | _ => false
  end.

Definition ui_effects (tr : trace) : trace := filter is_ui tr.

Definition is_error_message (e : effect) : bool :=
  match e with ShowErrorMessage _ => true | _ => false end.

(** ** Asynchronous computations *)

(** An async function either returns a value, or is suspended for ever on a
    promise that never settles.  Both carry the trace produced so far. *)
Inductive completion (A : Type) : Type :=
| Returns (a : A) (tr : trace)
| NeverResumes (tr : trace).
Arguments Returns {A} a tr.
Arguments NeverResumes {A} tr.

Definition M (A : Type) : Type := trace -> completion A.

Definition ret {A} (a : A) : M A := fun tr => Returns a tr.

Definition bind {A B} (m : M A) (k : A -> M B) : M B :=
  fun tr =>
    match m tr with
    | Returns a tr' => k a tr'
    | NeverResumes tr' => NeverResumes tr'
    end.

Definition emit (e : effect) : M unit := fun tr => Returns tt (tr ++ [e]).

Notation "x <- m ;; k" := (bind m (fun x => k))
  (at level 61, m at next level, right associativity).
Notation "m ;;; k" := (bind m (fun _ => k))
  (at level 61, right associativity).

Definition trace_of {A} (c : completion A) : trace :=
  match c with Returns _ tr => tr | NeverResumes tr => tr end.

Definition value_of {A} (c : completion A) : option A :=
  match c with Returns a _ => Some a | NeverResumes _ => None end.

(** ** Promises and the event loop *)

Inductive promise_state : Type := Pending | Fulfilled | Rejected.

(** [resolve] and [reject] settle a pending promise and do nothing to a
    settled one. *)
Definition resolve (p : promise_state) : promise_state :=
  match p with Pending => Fulfilled | _ => p end.

Definition reject (p : promise_state) : promise_state :=
  match p with Pending => Rejected | _ => p end.

(** The two callbacks a launch attempt registers, as the event loop
    dispatches them. *)
Inductive loop_event : Type :=
| ChildError      (* the 'error' listener runs: reject(err) *)
| TimerFired.     (* the timer callback runs: child.unref(); resolve(true) *)

(** The state of one launch attempt: its promise, and how often
    [child.unref()] has run. *)
Record attempt : Type := { promise : promise_state; unrefs : nat }.

Definition attempt_start : attempt := {| promise := Pending; unrefs := 0 |}.

(** [try { child.unref(); } catch (e) { }] cannot throw into the callback, so
    [resolve(true)] always follows it. *)
Definition dispatch (a : attempt) (e : loop_event) : attempt :=
  match e with
  | ChildError => {| promise := reject (promise a); unrefs := unrefs a |}
  | TimerFired => {| promise := resolve (promise a); unrefs := S (unrefs a) |}
  end.

Definition run_loop (evs : list loop_event) (a : attempt) : attempt :=
  fold_left dispatch evs a.

(** The order in which the event loop dispatches the callbacks of a child
    whose timer was registered with [delay].  The timer fires exactly once. *)
Definition schedule (delay : Z) (error_at : option Z) (tie_error_first : bool)
  : list loop_event :=
  match error_at with
  | None => [TimerFired]
  | Some t =>
      if (t <? delay)%Z then [ChildError; TimerFired]
      else if (delay <? t)%Z then [TimerFired; ChildError]
      else if tie_error_first then [ChildError; TimerFired]
      else [TimerFired; ChildError]
  end.

(** The outcome of a launch attempt, as the spec names it. *)
Inductive LaunchOutcome : Type := Succeeded | Failed | Undecided.

Definition outcome_of (a : attempt) : LaunchOutcome :=
  match promise a with
  | Fulfilled => Succeeded
  | Rejected => Failed
  | Pending => Undecided
  end.

(** [try { await p; on_ok } catch (e) { on_err }], where [on_ok] does not
    throw. *)
Definition try_await {A} (p : M attempt) (on_ok on_err : M A) : M A :=
  fun tr =>
    match p tr with
    | Returns a tr' =>
        match promise a with
        | Fulfilled => on_ok tr'
        | Rejected => on_err tr'
        | Pending => NeverResumes tr'
        end
    | NeverResumes tr' => NeverResumes tr'
    end.

Definition spawn_opts : spawn_options := {| detached := true; stdio := "ignore" |}.

(** The attempt once every callback of the child has been dispatched.  When
    [spawn] throws, the [catch] clause of the executor rejects at once and
    neither the listener nor the timer is registered. *)
Definition settle (delay : Z) (b : spawn_behaviour) : attempt :=
  match b with
  | SpawnThrows => {| promise := reject Pending; unrefs := 0 |}
  | SpawnChild t tie => run_loop (schedule delay t tie) attempt_start
  end.

(** The Promise executor shared by [spawnPromise] and [openAlacrittyTmux]:
<<
    try {
      const child = spawn(cmd, args, { detached: true, stdio: 'ignore' });
      child.on('error', reject);
      setTimeout(() => { try { child.unref(); } catch (e) { } resolve(true); }, delay);
    } catch (err) { reject(err); }
>>
    The trace records what the executor does; the value is the attempt as
    [settle] leaves it. *)
Definition launch (delay : Z) (h : host) (cmd : string) (args : list string)
  : M attempt :=
  fun tr =>
    let b := spawn h (spawn_count tr) cmd args in
    let tr1 := tr ++ [Spawn cmd args spawn_opts] in
    match b with
    | SpawnThrows => Returns (settle delay b) tr1
    | SpawnChild _ _ => Returns (settle delay b) (tr1 ++ [OnError; SetTimeout delay])
    end.

(** The first lines of both command callbacks:
<<
    let fileUri = resource;
    if (!fileUri) {
      const editor = vscode.window.activeTextEditor;
      if (editor) fileUri = editor.document.uri;
    }
>>
    [None] stands for a missing ([undefined]) resource or editor. *)
Definition fileUri (h : host) (resource : option Uri) : option Uri :=
  match resource with
  | Some u => Some u
  | None =>
      match activeTextEditor h with
      | Some editor => Some (uri (document editor))
      | None => None
      end
  end.

(** ** The cascading variant *)

Module Cascade.

Definition spawnPromise (h : host) (cmd : string) (args : list string)
  : M attempt :=
  launch 200 h cmd args.

(** The list literal of the Linux branch. *)
Definition candidates (targetDir : string) : list (string * list string) :=
  [ ("gnome-terminal",
      ["--"; "bash"; "-lc";
       ("cd " ++ dquote ++ targetDir ++ dquote ++ "; exec bash")%string]);
    ("konsole", ["--workdir"; targetDir]);
    ("xfce4-terminal", ["--working-directory"; targetDir]);
    ("x-terminal-emulator",
      ["-e";
       ("bash -c 'cd " ++ dquote ++ targetDir ++ dquote ++ "; exec bash'")%string]);
    ("xterm",
      ["-e";
       ("bash -lc 'cd " ++ dquote ++ targetDir ++ dquote ++ "; exec bash'")%string]) ].

(** The loop of the Linux branch with the [return false] that follows it:
<<
    for (const [cmd, args] of candidates) {
      try { await spawnPromise(cmd, args); return true; } catch (e) { }
    }
    return false;
>> *)
Fixpoint probe (h : host) (cs : list (string * list string)) : M bool :=
  match cs with
  | [] => ret false
  | (cmd, args) :: rest =>
      try_await (spawnPromise h cmd args) (ret true) (probe h rest)
  end.

Definition openSystemTerminal (h : host) (targetDir : string) : M bool :=
  let plt := platform h in
  if (plt =? "darwin")%string then
    try_await (spawnPromise h "open" ["-a"; "Terminal"; targetDir])
      (ret true)
      (try_await (spawnPromise h "open" ["-a"; "iTerm"; targetDir])
         (ret true)
         (ret false))
  else if (plt =? "win32")%string then
    try_await (spawnPromise h "wt" ["-d"; targetDir])
      (ret true)
      (try_await
         (spawnPromise h "cmd"
            ["/c"; "start"; "cmd.exe"; "/K";
             ("cd /d " ++ dquote ++ targetDir ++ dquote)%string])
         (ret true)
         (ret false))
  else if (plt =? "linux")%string then
    probe h (candidates targetDir)
  else
    ret false.

(** [label] is [None] when the caller leaves the second argument out. *)
Definition openIntegratedTerminal (targetDir : string) (label : option string)
  : M unit :=
  let label :=
    match label with Some l => l | None => "Open File Path" end in
  emit (CreateTerminal label targetDir) ;;;
  emit (TerminalShow true).

(** The callback that [activate] registers for the command
    'openFileInDefaultTerminal.open'. *)
Definition activate (h : host) (resource : option Uri) : M unit :=
  match fileUri h resource with
  | None => emit (ShowErrorMessage "No file selected to open in terminal.")
  | Some fileUri =>
      let filePath := fsPath fileUri in
      let targetDir := dirname h filePath in
      ok <- openSystemTerminal h targetDir ;;
      if negb ok then
        openIntegratedTerminal targetDir
          (Some ("Terminal — " ++ targetDir)%string) ;;;
        emit (ShowInformationMessage
                "Opened VS Code integrated terminal (system terminal not found).")
      else
        ret tt
  end.

End Cascade.

(** ** The minimal variant *)

Module Minimal.

Definition openAlacrittyTmux (h : host) (targetDir : string) : M attempt :=
  launch 200 h "alacritty" ["--working-directory"; targetDir].

(** The callback that [activate] registers for the command
    'openFileInDefaultTerminal.open'. *)
Definition activate (h : host) (resource : option Uri) : M unit :=
  match fileUri h resource with
  | None => emit (ShowErrorMessage "No file selected.")
  | Some fileUri =>
      let filePath := fsPath fileUri in
      let targetDir := dirname h filePath in
      try_await (openAlacrittyTmux h targetDir)
        (ret tt)
        (emit (ShowErrorMessage "Failed to open Alacritty (is it installed?)."))
  end.

End Minimal.

(** ** A host for examples *)

(** [path.dirname] of Node for POSIX paths (library code, used in examples
    only): the path up to the last slash that is followed by a non-slash
    character, where the first character is never taken for that slash. *)
Fixpoint dirname_end (rest : list ascii) (i : nat) (matchedSlash : bool)
  : option nat :=
  match rest with
  | [] => None
  | c :: rest' =>
      match i with
      | O => None
      | S i' =>
          if Ascii.eqb c "/"%char then
            if matchedSlash then dirname_end rest' i' true else Some i
          else dirname_end rest' i' false
      end
  end.

Definition posix_dirname (path : string) : string :=
  match path with
  | EmptyString => "."
  | String c0 _ =>
      let hasRoot := Ascii.eqb c0 "/"%char in
      let n := String.length path in
      match dirname_end (rev (list_ascii_of_string path)) (n - 1) true with
      | None => if hasRoot then "/" else "."
      | Some e =>
          if hasRoot && (e =? 1)%nat then "//" else substring 0 e path
      end
  end.

Definition always (b : spawn_behaviour)
  : nat -> string -> list string -> spawn_behaviour :=
  fun _ _ _ => b.

(** A child that never emits an error. *)
Definition starts : spawn_behaviour := SpawnChild None false.
(** A child whose spawn fails with an error event on the next tick. *)
Definition not_found : spawn_behaviour := SpawnChild (Some 0%Z) false.

(** The first [n] spawn calls fail, every later one starts. *)
Definition fail_first (n : nat)
  : nat -> string -> list string -> spawn_behaviour :=
  fun i _ _ => if (i <? n)%nat then not_found else starts.

Definition example_directories : list string :=
  [ "/"; "/home"; "/home/me"; "/home/me/projects"; "/home/me/projects/foo";
    "/home/me/projects/foo/src" ].

Definition example_host (plt : string)
  (sp : nat -> string -> list string -> spawn_behaviour) : host :=
  {| platform := plt; dirname := posix_dirname; spawn := sp;
     activeTextEditor := None;
     isDirectory := fun p => existsb (String.eqb p) example_directories |}.

(** The sequence of (command, arguments) pairs [openSystemTerminal] spawns on
    platform [plt] when every launch attempt fails: the candidates of that
    platform, as the code orders them. *)
Definition probe_sequence (plt targetDir : string) : list (string * list string) :=
  spawn_calls
    (trace_of
       (Cascade.openSystemTerminal (example_host plt (always not_found))
          targetDir [])).

(** The last argument of the candidate named [cmd] on platform [plt]: the
    inline shell command, for the candidates that have one. *)
Definition inline_command (plt cmd targetDir : string) : option string :=
  match find (fun c => String.eqb (fst c) cmd) (probe_sequence plt targetDir) with
  | Some (_, args) => Some (last args EmptyString)
  | None => None
  end.

(** ** Notions of the specification *)

Definition Candidate : Type := (string * list string)%type.

(** The candidate table of section 4.2, in the words of the spec: two
    entries for macOS, two for Windows, the ordered probe list for Linux,
    none for any other platform identifier. *)
Definition candidate_table (plt targetDir : string) : option (list Candidate) :=
  if (plt =? "darwin")%string then
    Some [ ("open", ["-a"; "Terminal"; targetDir]);
           ("open", ["-a"; "iTerm"; targetDir]) ]
  else if (plt =? "win32")%string then
    Some [ ("wt", ["-d"; targetDir]);
           ("cmd", ["/c"; "start"; "cmd.exe"; "/K";
                    ("cd /d " ++ dquote ++ targetDir ++ dquote)%string]) ]
  else if (plt =? "linux")%string then
    Some [ ("gnome-terminal",
             ["--"; "bash"; "-lc";
              ("cd " ++ dquote ++ targetDir ++ dquote ++ "; exec bash")%string]);
           ("konsole", ["--workdir"; targetDir]);
           ("xfce4-terminal", ["--working-directory"; targetDir]);
           ("x-terminal-emulator",
             ["-e";
              ("bash -c 'cd " ++ dquote ++ targetDir ++ dquote
                 ++ "; exec bash'")%string]);
           ("xterm",
             ["-e";
              ("bash -lc 'cd " ++ dquote ++ targetDir ++ dquote
                 ++ "; exec bash'")%string]) ]
  else None.

(** The outcome of the launch attempt that is the [i]-th spawn call of a run
    on host [h], made for candidate [c] with decision window [delay]. *)
Definition attempt_outcome (delay : Z) (h : host) (i : nat) (c : Candidate)
  : LaunchOutcome :=
  outcome_of (settle delay (spawn h i (fst c) (snd c))).

(** The error of a launch attempt is observed before the decision window
    elapses: [spawn] throws, or the child's error event comes earlier than
    the timer, or at the same instant and the loop runs its listener first. *)
Definition error_before_expiry (delay : Z) (b : spawn_behaviour) : Prop :=
  match b with
  | SpawnThrows => True
  | SpawnChild None _ => False
  | SpawnChild (Some t) tie => (t < delay)%Z \/ (t = delay /\ tie = true)
  end.

(** The text between the first double quote of [s] and the next one: what a
    shell (or cmd.exe) takes for the double-quoted word, when nothing inside
    is escaped. *)
Fixpoint until_dquote (s : string) : option (string * string) :=
  match s with
  | EmptyString => None
  | String c rest =>
      if Ascii.eqb c "034"%char then Some (EmptyString, rest)
      else
        match until_dquote rest with
        | Some (before, after) => Some (String c before, after)
        | None => None
        end
  end.

Definition quoted_region (s : string) : option string :=
  match until_dquote s with
  | Some (_, rest) =>
      match until_dquote rest with
      | Some (word, _) => Some word
      | None => None
      end
  | None => None
  end.

Fixpoint has_dquote (s : string) : bool :=
  match s with
  | EmptyString => false
  | String c rest => Ascii.eqb c "034"%char || has_dquote rest
  end.

(** How often the timer callback occurs among dispatched callbacks. *)
Fixpoint timer_count (evs : list loop_event) : nat :=
  match evs with
  | [] => 0
  | TimerFired :: evs' => S (timer_count evs')
  | ChildError :: evs' => timer_count evs'
  end.

(** The algorithm of section 4.2 on a list of outcomes: the position of the
    first candidate of [cs] whose launch attempt succeeds, when the attempts
    are the spawn calls number [k], [k + 1], ... of the run. *)
Fixpoint first_success (delay : Z) (h : host) (k : nat) (cs : list Candidate)
  : option nat :=
  match cs with
  | [] => None
  | c :: rest =>
      match attempt_outcome delay h k c with
      | Succeeded => Some 0
      | _ => option_map S (first_success delay h (S k) rest)
      end
  end.

(** The trace grew by [ext], which holds no user-interface action and only
    timers of [delay] milliseconds, at most one for each spawn call. *)
Definition quiet_extension (delay : Z) (tr tr' : trace) (ext : trace) : Prop :=
  tr' = tr ++ ext /\
  ui_effects ext = [] /\
  Forall (fun ms => ms = delay) (timeouts ext) /\
  length (timeouts ext) <= length (spawn_calls ext).

(** What the cascading callback does after the resolver has returned false:
    the integrated terminal at [targetDir] and the notice. *)
Definition fallback_effects (targetDir : string) : trace :=
  [ CreateTerminal ("Terminal — " ++ targetDir)%string targetDir;
    TerminalShow true;
    ShowInformationMessage
      "Opened VS Code integrated terminal (system terminal not found)." ].

(** The candidates whose last argument is an inline shell command, by
    platform and command name. *)
Definition shell_candidates : list (string * string) :=
  [ ("linux", "gnome-terminal"); ("linux", "x-terminal-emulator");
    ("linux", "xterm"); ("win32", "cmd") ].

(** ** The logger module *)

(** The module that follows the minimal variant in its file: a winston
    logger kept in a module-level variable. *)
Module Logging.

(** What the module finds around it at the time of one call: [os.homedir()]
    ([None] when it throws), [path.join], and whether
    [new winston.transports.File({ filename })] returns a transport ([true])
    or throws ([false]), as it does when the directory of the file cannot be
    made. *)
Record env : Type := {
  homedir : option string;
  path_join : string -> string -> string;
  file_transport : string -> bool
}.

(** A logger object as [winston.createLogger] builds it here: its level and
    the file of its only transport.  [logger_id] tells the objects apart. *)
Record Logger : Type := {
  logger_id : nat;
  level : string;
  filename : string
}.

(** The printf template of the logger: [`[${level}] ${message}`]. *)
Definition format (level message : string) : string :=
  ("[" ++ level ++ "] " ++ message)%string.

(** The module-level variable [logger], the number of logger objects built so
    far, and the lines handed to file transports, each with its file name. *)
Record state : Type := {
  logger : option Logger;
  instances : nat;
  written : list (string * string)
}.

Definition initial : state :=
  {| logger := None; instances := 0; written := [] |}.

(** A call returns a logger or throws. *)
Inductive result : Type :=
| Returned (l : Logger)
| Threw.

(** [logger.info(message)] on a logger of level 'info': the entry passes the
    level filter and the file transport appends the formatted line. *)
Definition info (l : Logger) (message : string) (st : state) : state :=
  {| logger := logger st;
     instances := instances st;
     written := written st ++ [(filename l, format "info" message)] |}.

(** The function has no [try]: an exception of [os.homedir()] or of the
    transport constructor leaves it before [logger] is assigned, so the state
    is as it was. *)
Definition createLogger (e : env) (st : state) : result * state :=
  match logger st with
  | Some l => (Returned l, st)
  | None =>
      match homedir e with
      | None => (Threw, st)
      | Some home =>
          let logFile := path_join e home "cli-runner.log" in
          if file_transport e logFile then
            let l := {| logger_id := instances st; level := "info";
                        filename := logFile |} in
            let st1 := {| logger := Some l;
                          instances := S (instances st);
                          written := written st |} in
            (Returned l, info l ("Logger initialized: " ++ logFile)%string st1)
          else (Threw, st)
      end
  end.

(** Calls of [createLogger] in a row, one for each environment of [es]: the
    results, in order, and the final state. *)
Fixpoint createLogger_calls (es : list env) (st : state)
  : list result * state :=
  match es with
  | [] => ([], st)
  | e :: es' =>
      let (r, st1) := createLogger e st in
      let (rs, st2) := createLogger_calls es' st1 in
      (r :: rs, st2)
  end.

(** The log file of a call that can build a logger in environment [e], and
    [None] when the call would throw. *)
Definition can_create (e : env) : option string :=
  match homedir e with
  | None => None
  | Some home =>
      let logFile := path_join e home "cli-runner.log" in
      if file_transport e logFile then Some logFile else None
  end.

End Logging.

(** ** Traces of the resolver, as functions *)

(** What one launch attempt appends to the trace when it is spawn call number
    [k]: the spawn call and, unless [spawn] throws, the registration of the
    listener and of the timer. *)
Definition launch_effects (delay : Z) (h : host) (k : nat)
  (cmd : string) (args : list string) : trace :=
  Spawn cmd args spawn_opts ::
  match spawn h k cmd args with
  | SpawnThrows => []
  | SpawnChild _ _ => [OnError; SetTimeout delay]
  end.

(** What the probe loop appends over the candidates [cs], starting at spawn
    call number [k]: the effects of each attempt up to and including the
    first that succeeds. *)
Fixpoint probe_effects (h : host) (k : nat) (cs : list Candidate) : trace :=
  match cs with
  | [] => []
  | c :: rest =>
      launch_effects 200 h k (fst c) (snd c) ++
      match attempt_outcome 200 h k c with
      | Succeeded => []
      | _ => probe_effects h (S k) rest
      end
  end.

(** The options of the spawn calls of a trace, in order. *)
Fixpoint spawn_options_of (tr : trace) : list spawn_options :=
  match tr with
  | [] => []
  | Spawn _ _ o :: tr' => o :: spawn_options_of tr'
  | _ :: tr' => spawn_options_of tr'
  end.

(** The answer of [spawn] does not depend on how many spawn calls came
    before. *)
Definition stateless_spawn (h : host) : Prop :=
  forall i j cmd args, spawn h i cmd args = spawn h j cmd args.

(** The options of a spawn call detach the child and discard its streams. *)
Definition detached_ignored (o : spawn_options) : Prop :=
  detached o = true /\ stdio o = "ignore".

(** ** The decision window, in terms of time *)

(** What it means for [delay] to be the decision window of a launch attempt
    with spawn answer [b], outcome [a] and added effects [ext]: when a child
    was returned, exactly one timer was registered, of [delay] milliseconds,
    and the attempt failed if the child's error came before [delay] and
    succeeded if it came after [delay] or never; when [spawn] threw, no timer
    was registered. *)
Definition window_governs (delay : Z) (b : spawn_behaviour) (a : attempt)
  (ext : trace) : Prop :=
  match b with
  | SpawnThrows => timeouts ext = []
  | SpawnChild t _ =>
      timeouts ext = [delay] /\
      match t with
      | None => outcome_of a = Succeeded
      | Some te =>
          ((te < delay)%Z -> outcome_of a = Failed) /\
          ((delay < te)%Z -> outcome_of a = Succeeded)
      end
  end.

(** How many of the spawn calls [calls], made as calls number [k], [k + 1],
    ... of a run, returned a child. *)
Fixpoint spawned_children (h : host) (k : nat) (calls : list Candidate) : nat :=
  match calls with
  | [] => 0
  | c :: rest =>
      match spawn h k (fst c) (snd c) with
      | SpawnThrows => 0
      | SpawnChild _ _ => 1
      end + spawned_children h (S k) rest
  end.

(** Every spawn call of the host returns a child whose error comes before,
    respectively after, [delay] milliseconds. *)
Definition every_error_before (delay : Z) (h : host) : Prop :=
  forall i cmd args,
    exists te tie, spawn h i cmd args = SpawnChild (Some te) tie /\ (te < delay)%Z.

Definition every_error_after (delay : Z) (h : host) : Prop :=
  forall i cmd args,
    exists te tie, spawn h i cmd args = SpawnChild (Some te) tie /\ (delay < te)%Z.

(** Hosts for examples: every child reports its error after [te]
    milliseconds. *)
Definition errors_at (te : Z) : nat -> string -> list string -> spawn_behaviour :=
  always (SpawnChild (Some te) false).

(** * Properties *)

(** ** Projections of traces *)

Lemma spawn_calls_app (tr1 tr2 : trace) :
  spawn_calls (tr1 ++ tr2) = spawn_calls tr1 ++ spawn_calls tr2.
Proof.
  induction tr1 as [|e tr1 IH]; simpl; [reflexivity|].
  destruct e; simpl; rewrite IH; reflexivity.
Qed.

Lemma timeouts_app (tr1 tr2 : trace) :
  timeouts (tr1 ++ tr2) = timeouts tr1 ++ timeouts tr2.
Proof.
  induction tr1 as [|e tr1 IH]; simpl; [reflexivity|].
  destruct e; simpl; rewrite IH; reflexivity.
Qed.

Lemma ui_effects_app (tr1 tr2 : trace) :
  ui_effects (tr1 ++ tr2) = ui_effects tr1 ++ ui_effects tr2.
Proof. apply filter_app. Qed.

Lemma spawn_count_calls (tr : trace) :
  spawn_count tr = length (spawn_calls tr).
Proof.
  unfold spawn_count.
  induction tr as [|e tr IH]; simpl; [reflexivity|].
  destruct e; simpl; rewrite IH; reflexivity.
Qed.

Lemma spawn_count_app (tr1 tr2 : trace) :
  spawn_count (tr1 ++ tr2) = spawn_count tr1 + spawn_count tr2.
Proof.
  rewrite !spawn_count_calls, spawn_calls_app. apply length_app.
Qed.

(** ** The promise of a launch attempt *)

Lemma resolve_settled (p : promise_state) : p <> Pending -> resolve p = p.
Proof. intros H. destruct p; simpl; congruence. Qed.

Lemma reject_settled (p : promise_state) : p <> Pending -> reject p = p.
Proof. intros H. destruct p; simpl; congruence. Qed.

(** A settled promise keeps its state whatever is dispatched later. *)
Lemma run_loop_settled (evs : list loop_event) (a : attempt) :
  promise a <> Pending -> promise (run_loop evs a) = promise a.
Proof.
  revert a. induction evs as [|e evs IH]; intros a Hp; simpl; [reflexivity|].
  unfold run_loop in IH. rewrite IH.
  - destruct e; simpl; [apply reject_settled | apply resolve_settled]; exact Hp.
  - destruct e; simpl;
      [rewrite reject_settled | rewrite resolve_settled]; assumption.
Qed.

Lemma run_loop_app (evs1 evs2 : list loop_event) (a : attempt) :
  run_loop (evs1 ++ evs2) a = run_loop evs2 (run_loop evs1 a).
Proof. apply fold_left_app. Qed.

(** The first callback dispatched decides the promise. *)
Lemma run_loop_first (evs : list loop_event) :
  outcome_of (run_loop evs attempt_start) =
  match evs with
  | [] => Undecided
  | ChildError :: _ => Failed
  | TimerFired :: _ => Succeeded
  end.
Proof.
  destruct evs as [|e evs]; [reflexivity|].
  unfold outcome_of.
  change (run_loop (e :: evs) attempt_start)
    with (run_loop evs (dispatch attempt_start e)).
  rewrite run_loop_settled by (destruct e; discriminate).
  destruct e; reflexivity.
Qed.

Lemma outcome_stable (evs : list loop_event) (a : attempt) :
  outcome_of a <> Undecided -> outcome_of (run_loop evs a) = outcome_of a.
Proof.
  intros H. unfold outcome_of in *.
  rewrite run_loop_settled; [reflexivity|].
  destruct (promise a); congruence.
Qed.

Lemma run_loop_unrefs (evs : list loop_event) (a : attempt) :
  unrefs (run_loop evs a) = unrefs a + timer_count evs.
Proof.
  revert a. induction evs as [|e evs IH]; intros a; simpl; [lia|].
  unfold run_loop in IH. rewrite IH. destruct e; simpl; lia.
Qed.

Lemma schedule_timer_once (delay : Z) (t : option Z) (tie : bool) :
  timer_count (schedule delay t tie) = 1.
Proof.
  unfold schedule. destruct t as [t|]; [|reflexivity].
  destruct (t <? delay)%Z; [reflexivity|].
  destruct (delay <? t)%Z; [reflexivity|].
  destruct tie; reflexivity.
Qed.

(** Which callback [schedule] puts first. *)
Lemma schedule_head (delay : Z) (t : option Z) (tie : bool) :
  (error_before_expiry delay (SpawnChild t tie) /\
   exists evs, schedule delay t tie = ChildError :: evs) \/
  (~ error_before_expiry delay (SpawnChild t tie) /\
   exists evs, schedule delay t tie = TimerFired :: evs).
Proof.
  unfold schedule, error_before_expiry. destruct t as [t|].
  - destruct (Z.ltb_spec t delay) as [Hlt|Hge].
    + left. split; [left; exact Hlt | eexists; reflexivity].
    + destruct (Z.ltb_spec delay t) as [Hgt|Hle].
      * right. split; [intros [H|[H _]]; lia | eexists; reflexivity].
      * destruct tie.
        -- left. split; [right; split; [lia|reflexivity] | eexists; reflexivity].
        -- right. split; [intros [H|[_ H]]; [lia|discriminate] | eexists; reflexivity].
  - right. split; [tauto | eexists; reflexivity].
Qed.

(** A launch attempt is decided, and fails exactly when the error comes
    first. *)
Lemma settle_outcome (delay : Z) (b : spawn_behaviour) :
  (error_before_expiry delay b /\ outcome_of (settle delay b) = Failed) \/
  (~ error_before_expiry delay b /\ outcome_of (settle delay b) = Succeeded).
Proof.
  destruct b as [|t tie].
  - left. split; [exact I | reflexivity].
  - unfold settle. rewrite run_loop_first.
    destruct (schedule_head delay t tie) as [[H [evs ->]]|[H [evs ->]]];
      [left | right]; split; auto.
Qed.

Lemma settle_decided (delay : Z) (b : spawn_behaviour) :
  promise (settle delay b) <> Pending.
Proof.
  destruct (settle_outcome delay b) as [[_ H]|[_ H]];
    unfold outcome_of in H; destruct (promise (settle delay b)); congruence.
Qed.

(** ** One launch *)

Lemma quiet_extension_trans (delay : Z) (tr0 tr1 tr2 ext1 ext2 : trace) :
  quiet_extension delay tr0 tr1 ext1 ->
  quiet_extension delay tr1 tr2 ext2 ->
  quiet_extension delay tr0 tr2 (ext1 ++ ext2).
Proof.
  intros (-> & Hu1 & Ht1 & Hl1) (-> & Hu2 & Ht2 & Hl2).
  repeat split.
  - symmetry. apply app_assoc.
  - rewrite ui_effects_app, Hu1, Hu2. reflexivity.
  - rewrite timeouts_app. apply Forall_app. split; assumption.
  - rewrite timeouts_app, spawn_calls_app, !length_app. lia.
Qed.

Lemma launch_run (delay : Z) (h : host) (cmd : string) (args : list string)
  (tr : trace) :
  exists ext,
    launch delay h cmd args tr =
      Returns (settle delay (spawn h (spawn_count tr) cmd args)) (tr ++ ext) /\
    spawn_calls ext = [(cmd, args)] /\
    quiet_extension delay tr (tr ++ ext) ext.
Proof.
  unfold launch, quiet_extension.
  destruct (spawn h (spawn_count tr) cmd args) as [|t tie].
  - exists [Spawn cmd args spawn_opts]. simpl. repeat split; auto.
  - exists [Spawn cmd args spawn_opts; OnError; SetTimeout delay].
    rewrite <- app_assoc. simpl. repeat split; auto.
Qed.

(** ** The probe loop *)

Section Probe.

Variable h : host.

Lemma probe_run (cs : list Candidate) :
  forall tr : trace,
  exists ext,
    Cascade.probe h cs tr =
      Returns (match first_success 200 h (spawn_count tr) cs with
               | Some _ => true
               | None => false
               end) (tr ++ ext) /\
    spawn_calls ext =
      match first_success 200 h (spawn_count tr) cs with
      | Some n => firstn (S n) cs
      | None => cs
      end /\
    quiet_extension 200 tr (tr ++ ext) ext.
Proof.
  induction cs as [|[cmd args] rest IH]; intros tr.
  - exists []. unfold quiet_extension. rewrite !app_nil_r. simpl.
    repeat split; auto.
  - destruct (launch_run 200 h cmd args tr) as (ext1 & Hrun & Hcalls & Hq).
    cbn [Cascade.probe first_success]. unfold try_await, Cascade.spawnPromise.
    rewrite Hrun. unfold attempt_outcome, outcome_of. cbn [fst snd].
    pose proof (settle_decided 200 (spawn h (spawn_count tr) cmd args)) as Hdec.
    destruct (promise (settle 200 (spawn h (spawn_count tr) cmd args)));
      [congruence | |].
    + exists ext1. split; [reflexivity | split; [| exact Hq]].
      rewrite Hcalls. reflexivity.
    + destruct (IH (tr ++ ext1)) as (ext2 & Hrun2 & Hcalls2 & Hq2).
      assert (Hk : spawn_count (tr ++ ext1) = S (spawn_count tr)).
      { rewrite spawn_count_app, (spawn_count_calls ext1), Hcalls. simpl. lia. }
      rewrite Hk in Hrun2, Hcalls2.
      exists (ext1 ++ ext2). rewrite app_assoc. split; [|split].
      * rewrite Hrun2.
        destruct (first_success 200 h (S (spawn_count tr)) rest); reflexivity.
      * rewrite spawn_calls_app, Hcalls, Hcalls2.
        destruct (first_success 200 h (S (spawn_count tr)) rest); reflexivity.
      * rewrite <- app_assoc.
        eapply quiet_extension_trans; [exact Hq|].
        rewrite app_assoc. exact Hq2.
Qed.

(** [openSystemTerminal] runs the probe loop over the table of its platform:
    the nested [try]/[catch] blocks of the macOS and Windows branches are the
    loop over two candidates. *)
Lemma openSystemTerminal_table (targetDir : string) :
  Cascade.openSystemTerminal h targetDir =
  match candidate_table (platform h) targetDir with
  | Some cs => Cascade.probe h cs
  | None => ret false
  end.
Proof.
  unfold Cascade.openSystemTerminal, candidate_table.
  destruct (platform h =? "darwin")%string; [reflexivity|].
  destruct (platform h =? "win32")%string; [reflexivity|].
  destruct (platform h =? "linux")%string; reflexivity.
Qed.

End Probe.

(** What [first_success] finds. *)
Lemma first_success_first (delay : Z) (h : host) (cs : list Candidate) :
  forall (k n : nat) (c : Candidate),
    nth_error cs n = Some c ->
    (forall i ci, i < n -> nth_error cs i = Some ci ->
                  attempt_outcome delay h (k + i) ci = Failed) ->
    attempt_outcome delay h (k + n) c = Succeeded ->
    first_success delay h k cs = Some n.
Proof.
  induction cs as [|c0 rest IH]; intros k n c Hn Hbefore Hok.
  - destruct n; discriminate.
  - destruct n as [|n]; simpl in *.
    + injection Hn as ->. rewrite Nat.add_0_r in Hok. rewrite Hok. reflexivity.
    + specialize (Hbefore 0 c0 (Nat.lt_0_succ n) eq_refl) as H0.
      rewrite Nat.add_0_r in H0. rewrite H0.
      rewrite (IH (S k) n c Hn); [reflexivity| |].
      * intros i ci Hi Hci.
        replace (S k + i) with (k + S i) by lia.
        apply Hbefore; [lia | exact Hci].
      * replace (S k + n) with (k + S n) by lia. exact Hok.
Qed.

Lemma first_success_none (delay : Z) (h : host) (cs : list Candidate) :
  forall k : nat,
    (forall i ci, nth_error cs i = Some ci ->
                  attempt_outcome delay h (k + i) ci = Failed) ->
    first_success delay h k cs = None.
Proof.
  induction cs as [|c0 rest IH]; intros k Hall; simpl; [reflexivity|].
  specialize (Hall 0 c0 eq_refl) as H0.
  rewrite Nat.add_0_r in H0. rewrite H0.
  rewrite IH; [reflexivity|].
  intros i ci Hci. replace (S k + i) with (k + S i) by lia.
  apply Hall. exact Hci.
Qed.

(** The probe sequence of a platform is its table, and empty for a platform
    without one. *)
Lemma probe_sequence_table (plt targetDir : string) :
  probe_sequence plt targetDir =
  match candidate_table plt targetDir with Some cs => cs | None => [] end.
Proof.
  unfold probe_sequence. rewrite openSystemTerminal_table.
  cbn [platform example_host].
  destruct (candidate_table plt targetDir) as [cs|]; [|reflexivity].
  destruct (probe_run (example_host plt (always not_found)) cs [])
    as (ext & Hrun & Hcalls & _).
  rewrite first_success_none in Hrun, Hcalls by (intros; reflexivity).
  rewrite Hrun. exact Hcalls.
Qed.

(** Every run of the resolver spawns an initial segment of the probe
    sequence of its platform, and returns. *)
Lemma openSystemTerminal_run (h : host) (targetDir : string) (tr : trace) :
  exists (ok : bool) (ext : trace) (n : nat),
    Cascade.openSystemTerminal h targetDir tr = Returns ok (tr ++ ext) /\
    spawn_calls ext = firstn n (probe_sequence (platform h) targetDir) /\
    (ok = true -> 0 < n) /\
    (ok = false -> spawn_calls ext = probe_sequence (platform h) targetDir) /\
    quiet_extension 200 tr (tr ++ ext) ext.
Proof.
  rewrite openSystemTerminal_table, probe_sequence_table.
  destruct (candidate_table (platform h) targetDir) as [cs|].
  - destruct (probe_run h cs tr) as (ext & Hrun & Hcalls & Hq).
    destruct (first_success 200 h (spawn_count tr) cs) as [n|].
    + exists true, ext, (S n).
      split; [exact Hrun | split; [exact Hcalls | split; [lia | split]]];
        [discriminate | exact Hq].
    + exists false, ext, (length cs). rewrite firstn_all.
      split; [exact Hrun | split; [exact Hcalls | split; [discriminate | split]]];
        [intros _; exact Hcalls | exact Hq].
  - exists false, [], 0. unfold ret. rewrite app_nil_r.
    split; [reflexivity | split; [reflexivity | split; [discriminate | split]]];
      [reflexivity |].
    unfold quiet_extension. rewrite app_nil_r. simpl. auto.
Qed.

(** ** The resolver *)

(** C1.  On a platform with a candidate table, the resolver launches the
    candidates of the table in order.  If the candidate at position [n]
    (counting from 0) is the first whose launch attempt succeeds, the
    resolver returns true after exactly [n + 1] spawn calls, which are the
    first [n + 1] candidates in order, and spawns nothing after them.  If
    every launch attempt fails, the resolver returns false after spawning
    every candidate of the table exactly once, in order. *)
Theorem resolver_cascade_in_order
  (h : host) (targetDir : string) (cs : list Candidate) (tr : trace) :
  candidate_table (platform h) targetDir = Some cs ->
  (forall (n : nat) (c : Candidate),
      nth_error cs n = Some c ->
      (forall i ci, i < n -> nth_error cs i = Some ci ->
                    attempt_outcome 200 h (spawn_count tr + i) ci = Failed) ->
      attempt_outcome 200 h (spawn_count tr + n) c = Succeeded ->
      exists ext,
        Cascade.openSystemTerminal h targetDir tr = Returns true (tr ++ ext) /\
        spawn_calls ext = firstn (S n) cs /\
        spawn_count ext = S n) /\
  ((forall i ci, nth_error cs i = Some ci ->
                 attempt_outcome 200 h (spawn_count tr + i) ci = Failed) ->
   exists ext,
     Cascade.openSystemTerminal h targetDir tr = Returns false (tr ++ ext) /\
     spawn_calls ext = cs /\
     spawn_count ext = length cs).
Proof.
  intros Htable. rewrite openSystemTerminal_table, Htable.
  destruct (probe_run h cs tr) as (ext & Hrun & Hcalls & _).
  split.
  - intros n c Hn Hbefore Hok.
    rewrite (first_success_first 200 h cs _ n c Hn Hbefore Hok) in Hrun, Hcalls.
    exists ext. split; [exact Hrun | split; [exact Hcalls|]].
    rewrite spawn_count_calls, Hcalls, length_firstn.
    apply Nat.min_l. apply Nat.le_succ_l.
    apply nth_error_Some. congruence.
  - intros Hall.
    rewrite (first_success_none 200 h cs _ Hall) in Hrun, Hcalls.
    exists ext. split; [exact Hrun | split; [exact Hcalls|]].
    rewrite spawn_count_calls, Hcalls. reflexivity.
Qed.

(** On Linux with gnome-terminal and konsole missing, the third candidate is
    launched and nothing after it; on macOS with both candidates missing, both
    are launched and the resolver gives up. *)
Lemma resolver_cascade_in_order_witness :
  (exists ext,
      Cascade.openSystemTerminal (example_host "linux" (fail_first 2))
        "/home/me/projects/foo/src" [] = Returns true ([] ++ ext) /\
      spawn_calls ext = firstn 3 (Cascade.candidates "/home/me/projects/foo/src") /\
      spawn_count ext = 3) /\
  (exists ext,
      Cascade.openSystemTerminal (example_host "darwin" (always not_found))
        "/home/me" [] = Returns false ([] ++ ext) /\
      spawn_calls ext =
        [ ("open", ["-a"; "Terminal"; "/home/me"]);
          ("open", ["-a"; "iTerm"; "/home/me"]) ] /\
      spawn_count ext = 2).
Proof.
  split.
  - destruct (resolver_cascade_in_order (example_host "linux" (fail_first 2))
                "/home/me/projects/foo/src"
                (Cascade.candidates "/home/me/projects/foo/src") [] eq_refl)
      as [Hfirst _].
    apply (Hfirst 2 ("xfce4-terminal",
                     ["--working-directory"; "/home/me/projects/foo/src"])).
    + reflexivity.
    + intros i ci Hi _. destruct i as [|[|i]]; [reflexivity | reflexivity | lia].
    + reflexivity.
  - destruct (resolver_cascade_in_order
                (example_host "darwin" (always not_found)) "/home/me"
                [ ("open", ["-a"; "Terminal"; "/home/me"]);
                  ("open", ["-a"; "iTerm"; "/home/me"]) ] [] eq_refl)
      as [_ Hnone].
    apply Hnone. intros i ci _. reflexivity.
Defined.

(** C2.  On a platform identifier other than 'darwin', 'win32' and 'linux'
    the resolver returns false at once: the trace is left as it was, so no
    spawn call is made. *)
Theorem unknown_platform_no_spawn (h : host) (targetDir : string) (tr : trace) :
  platform h <> "darwin" ->
  platform h <> "win32" ->
  platform h <> "linux" ->
  Cascade.openSystemTerminal h targetDir tr = Returns false tr /\
  spawn_count (trace_of (Cascade.openSystemTerminal h targetDir tr)) =
    spawn_count tr.
Proof.
  intros Hd Hw Hl.
  assert (E : Cascade.openSystemTerminal h targetDir tr = Returns false tr).
  { unfold Cascade.openSystemTerminal.
    apply String.eqb_neq in Hd, Hw, Hl. rewrite Hd, Hw, Hl. reflexivity. }
  rewrite E. split; reflexivity.
Qed.

Lemma unknown_platform_no_spawn_witness :
  Cascade.openSystemTerminal (example_host "freebsd" (always starts))
    "/home/me" [] = Returns false [] /\
  spawn_count
    (trace_of (Cascade.openSystemTerminal (example_host "freebsd" (always starts))
                 "/home/me" [])) = spawn_count [].
Proof.
  apply (unknown_platform_no_spawn (example_host "freebsd" (always starts)));
    discriminate.
Defined.

(** ** The command callbacks *)

Lemma cascade_activate_no_context (h : host) (resource : option Uri) (tr : trace) :
  fileUri h resource = None ->
  Cascade.activate h resource tr =
    Returns tt (tr ++ [ShowErrorMessage "No file selected to open in terminal."]).
Proof. intros E. unfold Cascade.activate. rewrite E. reflexivity. Qed.

Lemma cascade_activate_run
  (h : host) (resource : option Uri) (u : Uri) (tr : trace) :
  fileUri h resource = Some u ->
  forall (ok : bool) (tr1 : trace),
    Cascade.openSystemTerminal h (dirname h (fsPath u)) tr = Returns ok tr1 ->
    Cascade.activate h resource tr =
      Returns tt
        (tr1 ++ if ok then [] else fallback_effects (dirname h (fsPath u))).
Proof.
  intros E ok tr1 Hrun. unfold Cascade.activate. rewrite E.
  unfold bind. rewrite Hrun. destruct ok; simpl.
  - unfold ret. rewrite app_nil_r. reflexivity.
  - unfold Cascade.openIntegratedTerminal, bind, emit, fallback_effects.
    rewrite <- !app_assoc. reflexivity.
Qed.

Lemma minimal_activate_no_context (h : host) (resource : option Uri) (tr : trace) :
  fileUri h resource = None ->
  Minimal.activate h resource tr =
    Returns tt (tr ++ [ShowErrorMessage "No file selected."]).
Proof. intros E. unfold Minimal.activate. rewrite E. reflexivity. Qed.

Lemma minimal_activate_run
  (h : host) (resource : option Uri) (u : Uri) (tr : trace) :
  fileUri h resource = Some u ->
  exists ext,
    spawn_calls ext =
      [("alacritty", ["--working-directory"; dirname h (fsPath u)])] /\
    quiet_extension 200 tr (tr ++ ext) ext /\
    Minimal.activate h resource tr =
      Returns tt
        (tr ++ ext ++
           match attempt_outcome 200 h (spawn_count tr)
                   ("alacritty", ["--working-directory"; dirname h (fsPath u)])
           with
           | Succeeded => []
           | _ => [ShowErrorMessage "Failed to open Alacritty (is it installed?)."]
           end).
Proof.
  intros E. unfold Minimal.activate, Minimal.openAlacrittyTmux. rewrite E.
  set (args := ["--working-directory"; dirname h (fsPath u)]).
  destruct (launch_run 200 h "alacritty" args tr) as (ext & Hrun & Hcalls & Hq).
  exists ext. split; [exact Hcalls | split; [exact Hq|]].
  unfold try_await. rewrite Hrun.
  unfold attempt_outcome, outcome_of. cbn [fst snd].
  pose proof (settle_decided 200 (spawn h (spawn_count tr) "alacritty" args))
    as Hdec.
  destruct (promise (settle 200 (spawn h (spawn_count tr) "alacritty" args)));
    [congruence | |].
  - unfold ret. rewrite app_nil_r. reflexivity.
  - unfold emit. rewrite app_assoc. reflexivity.
Qed.

(** ** Strings with double quotes *)

Lemma append_empty_r (s : string) : (s ++ EmptyString)%string = s.
Proof. induction s as [|c s IH]; simpl; [reflexivity | rewrite IH; reflexivity]. Qed.

Lemma contains_self (s : string) : contains s s.
Proof. exists EmptyString, EmptyString. simpl. rewrite append_empty_r. reflexivity. Qed.

Lemma until_dquote_app (pre rest : string) :
  has_dquote pre = false ->
  until_dquote (pre ++ dquote ++ rest)%string = Some (pre, rest).
Proof.
  induction pre as [|c pre IH]; simpl in *; intros H; [reflexivity|].
  apply orb_false_elim in H. destruct H as [Hc Hpre].
  rewrite Hc, (IH Hpre). reflexivity.
Qed.

Lemma until_dquote_word (s word rest : string) :
  until_dquote s = Some (word, rest) -> has_dquote word = false.
Proof.
  revert word rest. induction s as [|c s IH]; simpl; intros word rest H.
  - discriminate.
  - destruct (Ascii.eqb c "034"%char) eqn:Hc.
    + injection H as <- _. reflexivity.
    + destruct (until_dquote s) as [[w r]|]; [|discriminate].
      injection H as <- _. simpl. rewrite Hc. exact (IH w r eq_refl).
Qed.

(** The quoted region never holds a double quote. *)
Lemma quoted_region_no_dquote (s word : string) :
  quoted_region s = Some word -> has_dquote word = false.
Proof.
  unfold quoted_region. intros H.
  destruct (until_dquote s) as [[w1 r1]|]; [|discriminate].
  destruct (until_dquote r1) as [[w2 r2]|] eqn:E; [|discriminate].
  injection H as <-. exact (until_dquote_word r1 w2 r2 E).
Qed.

(** A directory without a double quote is what the quotes delimit. *)
Lemma quoted_region_interpolated (pre dir post : string) :
  has_dquote pre = false ->
  has_dquote dir = false ->
  quoted_region (pre ++ dquote ++ dir ++ dquote ++ post)%string = Some dir.
Proof.
  intros Hpre Hdir. unfold quoted_region.
  rewrite (until_dquote_app pre _ Hpre), (until_dquote_app dir _ Hdir).
  reflexivity.
Qed.

(** The inline commands are the directory between two double quotes, with a
    fixed text before and after. *)
Lemma inline_command_shape (plt cmd dir s : string) :
  In (plt, cmd) shell_candidates ->
  inline_command plt cmd dir = Some s ->
  exists pre post,
    has_dquote pre = false /\
    s = (pre ++ dquote ++ dir ++ dquote ++ post)%string.
Proof.
  unfold inline_command. rewrite probe_sequence_table.
  intros Hin.
  repeat (destruct Hin as [Hin|Hin];
          [injection Hin as <- <-; cbn; intros H; injection H as <-|]).
  - exists "cd ", "; exec bash". split; reflexivity.
  - exists "bash -c 'cd ", "; exec bash'". split; reflexivity.
  - exists "bash -lc 'cd ", "; exec bash'". split; reflexivity.
  - exists "cd /d ", EmptyString. split; reflexivity.
  - destruct Hin.
Qed.

(** ** The launch attempt *)

(** C3.  A launch attempt always yields an outcome.  It is Failed exactly
    when the error is observed before the decision window of 200 ms elapses
    ([spawn] throws, or the error listener is dispatched before the timer
    callback) and Succeeded exactly when the timer callback comes first.
    Once the outcome is Succeeded, no later callback changes it, neither
    within the scheduled callbacks nor after them; and on success the timer
    callback, the only one that calls [unref], has unreferenced the child
    once. *)
Theorem launch_attempt_outcome
  (h : host) (cmd : string) (args : list string) (tr : trace) :
  exists (a : attempt) (ext : trace),
    Cascade.spawnPromise h cmd args tr = Returns a (tr ++ ext) /\
    (outcome_of a = Failed <->
     error_before_expiry 200 (spawn h (spawn_count tr) cmd args)) /\
    (outcome_of a = Succeeded <->
     ~ error_before_expiry 200 (spawn h (spawn_count tr) cmd args)) /\
    (forall t tie pre post,
        spawn h (spawn_count tr) cmd args = SpawnChild t tie ->
        schedule 200 t tie = pre ++ post ->
        outcome_of (run_loop pre attempt_start) = Succeeded ->
        outcome_of a = Succeeded) /\
    (forall late,
        outcome_of a = Succeeded -> outcome_of (run_loop late a) = Succeeded) /\
    (outcome_of a = Succeeded -> unrefs a = 1 /\ timeouts ext = [200%Z]) /\
    (forall x, unrefs (dispatch x TimerFired) = S (unrefs x) /\
               unrefs (dispatch x ChildError) = unrefs x).
Proof.
  set (b := spawn h (spawn_count tr) cmd args).
  exists (settle 200 b).
  exists (Spawn cmd args spawn_opts ::
          match b with SpawnThrows => [] | SpawnChild _ _ => [OnError; SetTimeout 200] end).
  split; [|split; [|split; [|split; [|split; [|split]]]]].
  - unfold Cascade.spawnPromise, launch. fold b.
    destruct b; [reflexivity|]. rewrite <- app_assoc. reflexivity.
  - destruct (settle_outcome 200 b) as [[He Ho]|[He Ho]]; rewrite Ho.
    + tauto.
    + split; [discriminate | contradiction].
  - destruct (settle_outcome 200 b) as [[He Ho]|[He Ho]]; rewrite Ho.
    + split; [discriminate | contradiction].
    + tauto.
  - intros t tie pre post Hb Hsched Hpre. rewrite Hb. unfold settle.
    rewrite Hsched, run_loop_app, outcome_stable; [exact Hpre|].
    rewrite Hpre. discriminate.
  - intros late Hok. rewrite outcome_stable; [exact Hok|].
    rewrite Hok. discriminate.
  - intros Hok. destruct b as [|t tie]; [discriminate Hok|].
    split; [|reflexivity].
    unfold settle. rewrite run_loop_unrefs, schedule_timer_once. reflexivity.
  - intros x. split; reflexivity.
Qed.

(** In terms of time alone: an error before the 200 ms have passed fails the
    attempt, an error after them (or none) leaves it succeeded, whichever way
    the host breaks ties. *)
Lemma settle_timed (t : Z) (tie : bool) :
  ((t < 200)%Z -> outcome_of (settle 200 (SpawnChild (Some t) tie)) = Failed) /\
  ((200 < t)%Z -> outcome_of (settle 200 (SpawnChild (Some t) tie)) = Succeeded) /\
  outcome_of (settle 200 (SpawnChild None tie)) = Succeeded.
Proof.
  split; [|split]; [intros H | intros H |];
    destruct (settle_outcome 200 (SpawnChild (Some t) tie)) as [[He Ho]|[He Ho]];
    simpl in He; try exact Ho; try reflexivity.
  - exfalso. apply He. left. exact H.
  - exfalso. destruct He as [He|[He _]]; lia.
Qed.

(** The outcomes around the boundary of the window. *)
Example launch_error_at_0 :
  outcome_of (settle 200 (SpawnChild (Some 0%Z) false)) = Failed.
Proof. reflexivity. Qed.

Example launch_error_at_199 :
  outcome_of (settle 200 (SpawnChild (Some 199%Z) false)) = Failed.
Proof. reflexivity. Qed.

Example launch_error_at_201 :
  outcome_of (settle 200 (SpawnChild (Some 201%Z) true)) = Succeeded.
Proof. reflexivity. Qed.

Example launch_no_error :
  settle 200 (SpawnChild None false) = {| promise := Fulfilled; unrefs := 1 |}.
Proof. reflexivity. Qed.

(** ** The candidate tables *)

(** C4.  For every target directory the candidates the resolver launches
    are, in this order: on 'darwin', [open -a Terminal dir] and
    [open -a iTerm dir]; on 'win32', [wt -d dir] and
    [cmd /c start cmd.exe /K 'cd /d "dir"']; on 'linux', gnome-terminal,
    konsole, xfce4-terminal, x-terminal-emulator and xterm, each with a
    working-directory flag or an inline shell command that changes to the
    directory and execs bash.  Every candidate has the directory in one of
    its arguments, and every run of the resolver spawns an initial segment of
    the sequence of its platform. *)
Theorem candidate_tables_exact (targetDir : string) :
  probe_sequence "darwin" targetDir =
    [ ("open", ["-a"; "Terminal"; targetDir]);
      ("open", ["-a"; "iTerm"; targetDir]) ] /\
  probe_sequence "win32" targetDir =
    [ ("wt", ["-d"; targetDir]);
      ("cmd", ["/c"; "start"; "cmd.exe"; "/K";
               ("cd /d " ++ dquote ++ targetDir ++ dquote)%string]) ] /\
  probe_sequence "linux" targetDir =
    [ ("gnome-terminal",
        ["--"; "bash"; "-lc";
         ("cd " ++ dquote ++ targetDir ++ dquote ++ "; exec bash")%string]);
      ("konsole", ["--workdir"; targetDir]);
      ("xfce4-terminal", ["--working-directory"; targetDir]);
      ("x-terminal-emulator",
        ["-e";
         ("bash -c 'cd " ++ dquote ++ targetDir ++ dquote
            ++ "; exec bash'")%string]);
      ("xterm",
        ["-e";
         ("bash -lc 'cd " ++ dquote ++ targetDir ++ dquote
            ++ "; exec bash'")%string]) ] /\
  (forall plt cmd args,
      In (cmd, args) (probe_sequence plt targetDir) ->
      exists a, In a args /\ contains targetDir a) /\
  (forall h tr,
      exists n,
        spawn_calls (trace_of (Cascade.openSystemTerminal h targetDir tr)) =
        spawn_calls tr ++ firstn n (probe_sequence (platform h) targetDir)).
Proof.
  split; [reflexivity | split; [reflexivity | split; [reflexivity | split]]].
  - intros plt cmd args. rewrite probe_sequence_table. unfold candidate_table.
    assert (Hplain : forall l, In targetDir l ->
                               exists a, In a l /\ contains targetDir a).
    { intros l Hl. exists targetDir. split; [exact Hl | apply contains_self]. }
    assert (Hlast : forall pre post l,
               In (pre ++ targetDir ++ post)%string l ->
               exists a, In a l /\ contains targetDir a).
    { intros pre post l Hl. eexists. split; [exact Hl|].
      exists pre, post. reflexivity. }
    destruct (plt =? "darwin")%string;
      [|destruct (plt =? "win32")%string;
        [|destruct (plt =? "linux")%string]]; simpl; intros Hin;
      repeat (destruct Hin as [Hin|Hin]; [injection Hin as <- <-|]);
      try contradiction;
      try (apply Hplain; simpl; tauto).
    + apply (Hlast ("cd /d " ++ dquote)%string dquote). simpl. tauto.
    + apply (Hlast ("cd " ++ dquote)%string (dquote ++ "; exec bash")%string).
      simpl. tauto.
    + apply (Hlast ("bash -c 'cd " ++ dquote)%string
                   (dquote ++ "; exec bash'")%string).
      simpl. tauto.
    + apply (Hlast ("bash -lc 'cd " ++ dquote)%string
                   (dquote ++ "; exec bash'")%string).
      simpl. tauto.
  - intros h tr.
    destruct (openSystemTerminal_run h targetDir tr)
      as (ok & ext & n & Hrun & Hcalls & _).
    exists n. rewrite Hrun. simpl. rewrite spawn_calls_app, Hcalls. reflexivity.
Qed.

(** ** The cascading callback *)

(** C5.  When the resolver returns false, the launch attempts have shown
    nothing to the user, and the callback then creates the integrated
    terminal with the target directory as its working directory, shows it,
    and shows an information message that no system terminal was found.  No
    error message is shown on this path. *)
Theorem exhaustion_falls_back
  (h : host) (resource : option Uri) (u : Uri) (tr tr1 : trace) :
  fileUri h resource = Some u ->
  Cascade.openSystemTerminal h (dirname h (fsPath u)) tr = Returns false tr1 ->
  exists ext,
    tr1 = tr ++ ext /\
    ui_effects ext = [] /\
    Cascade.activate h resource tr =
      Returns tt
        (tr1 ++
           [ CreateTerminal ("Terminal — " ++ dirname h (fsPath u))%string
               (dirname h (fsPath u));
             TerminalShow true;
             ShowInformationMessage
               "Opened VS Code integrated terminal (system terminal not found)." ]) /\
    existsb is_error_message
      (ext ++ fallback_effects (dirname h (fsPath u))) = false.
Proof.
  intros E Hrun.
  destruct (openSystemTerminal_run h (dirname h (fsPath u)) tr)
    as (ok & ext & n & Hrun' & _ & _ & _ & Hq).
  rewrite Hrun in Hrun'. injection Hrun' as <- ->.
  destruct Hq as (_ & Hui & _ & _).
  exists ext. split; [reflexivity | split; [exact Hui | split]].
  - rewrite (cascade_activate_run h resource u tr E false (tr ++ ext) Hrun).
    reflexivity.
  - rewrite existsb_app. apply orb_false_intro; [|reflexivity].
    clear - Hui. induction ext as [|e ext IH]; [reflexivity|].
    destruct e; simpl in *; try discriminate; auto.
Qed.

Lemma exhaustion_falls_back_witness :
  exists ext,
    [ Spawn "open" ["-a"; "Terminal"; "/home/me"] spawn_opts;
      OnError; SetTimeout 200;
      Spawn "open" ["-a"; "iTerm"; "/home/me"] spawn_opts;
      OnError; SetTimeout 200 ] = [] ++ ext /\
    ui_effects ext = [] /\
    Cascade.activate (example_host "darwin" (always not_found))
      (Some {| fsPath := "/home/me/notes.txt" |}) [] =
      Returns tt
        ([ Spawn "open" ["-a"; "Terminal"; "/home/me"] spawn_opts;
           OnError; SetTimeout 200;
           Spawn "open" ["-a"; "iTerm"; "/home/me"] spawn_opts;
           OnError; SetTimeout 200 ] ++
         [ CreateTerminal "Terminal — /home/me" "/home/me";
           TerminalShow true;
           ShowInformationMessage
             "Opened VS Code integrated terminal (system terminal not found)." ]) /\
    existsb is_error_message (ext ++ fallback_effects "/home/me") = false.
Proof.
  apply (exhaustion_falls_back (example_host "darwin" (always not_found))
           (Some {| fsPath := "/home/me/notes.txt" |})
           {| fsPath := "/home/me/notes.txt" |} []);
    reflexivity.
Defined.

(** C6.  Without a resource and without an active editor, either variant of
    the callback shows an error message and returns; nothing else is added to
    the trace, so no spawn call is made. *)
Theorem no_context_error_before_spawn (h : host) (tr : trace) :
  activeTextEditor h = None ->
  Cascade.activate h None tr =
    Returns tt (tr ++ [ShowErrorMessage "No file selected to open in terminal."]) /\
  Minimal.activate h None tr =
    Returns tt (tr ++ [ShowErrorMessage "No file selected."]) /\
  spawn_calls (trace_of (Cascade.activate h None tr)) = spawn_calls tr /\
  spawn_calls (trace_of (Minimal.activate h None tr)) = spawn_calls tr.
Proof.
  intros Hed.
  assert (E : fileUri h None = None) by (unfold fileUri; rewrite Hed; reflexivity).
  rewrite (cascade_activate_no_context h None tr E),
          (minimal_activate_no_context h None tr E).
  simpl. rewrite !spawn_calls_app. simpl. rewrite !app_nil_r.
  repeat split.
Qed.

Lemma no_context_error_before_spawn_witness :
  Cascade.activate (example_host "linux" (always starts)) None [] =
    Returns tt ([] ++ [ShowErrorMessage "No file selected to open in terminal."]) /\
  Minimal.activate (example_host "linux" (always starts)) None [] =
    Returns tt ([] ++ [ShowErrorMessage "No file selected."]) /\
  spawn_calls
    (trace_of (Cascade.activate (example_host "linux" (always starts)) None []))
    = spawn_calls [] /\
  spawn_calls
    (trace_of (Minimal.activate (example_host "linux" (always starts)) None []))
    = spawn_calls [].
Proof.
  apply (no_context_error_before_spawn (example_host "linux" (always starts)) []).
  reflexivity.
Defined.

(** ** The minimal callback *)

(** C7.  With a directory context the minimal callback makes exactly one
    spawn call, [alacritty --working-directory dir].  When that launch
    attempt fails it shows the error message 'Failed to open Alacritty (is it
    installed?).', which names the program, and does nothing else: no
    second spawn call and no integrated terminal.  When the attempt succeeds
    it shows nothing. *)
Theorem minimal_single_candidate
  (h : host) (resource : option Uri) (u : Uri) (tr : trace) :
  fileUri h resource = Some u ->
  exists ext,
    Minimal.activate h resource tr = Returns tt (tr ++ ext) /\
    spawn_calls ext =
      [("alacritty", ["--working-directory"; dirname h (fsPath u)])] /\
    (attempt_outcome 200 h (spawn_count tr)
       ("alacritty", ["--working-directory"; dirname h (fsPath u)]) = Failed ->
     ui_effects ext =
       [ShowErrorMessage "Failed to open Alacritty (is it installed?)."]) /\
    (attempt_outcome 200 h (spawn_count tr)
       ("alacritty", ["--working-directory"; dirname h (fsPath u)]) = Succeeded ->
     ui_effects ext = []) /\
    contains "Alacritty" "Failed to open Alacritty (is it installed?).".
Proof.
  intros E.
  destruct (minimal_activate_run h resource u tr E)
    as (ext & Hcalls & (_ & Hui & _ & _) & Hrun).
  set (o := attempt_outcome 200 h (spawn_count tr)
              ("alacritty", ["--working-directory"; dirname h (fsPath u)])) in *.
  eexists. split; [exact Hrun | split; [|split; [|split]]].
  - rewrite spawn_calls_app, Hcalls. destruct o; reflexivity.
  - intros Ho. rewrite Ho, ui_effects_app, Hui. reflexivity.
  - intros Ho. rewrite Ho, ui_effects_app, Hui. reflexivity.
  - exists "Failed to open ", " (is it installed?).". reflexivity.
Qed.

Lemma minimal_single_candidate_witness :
  exists ext,
    Minimal.activate (example_host "linux" (always not_found))
      (Some {| fsPath := "/home/me/notes.txt" |}) [] = Returns tt ([] ++ ext) /\
    spawn_calls ext = [("alacritty", ["--working-directory"; "/home/me"])] /\
    ui_effects ext =
      [ShowErrorMessage "Failed to open Alacritty (is it installed?)."].
Proof.
  destruct (minimal_single_candidate (example_host "linux" (always not_found))
              (Some {| fsPath := "/home/me/notes.txt" |})
              {| fsPath := "/home/me/notes.txt" |} [] eq_refl)
    as (ext & Hrun & Hcalls & Hfail & _).
  exists ext. split; [exact Hrun | split; [exact Hcalls|]].
  apply Hfail. reflexivity.
Defined.

(** ** Interpolation without escaping *)

(** C9.  The last argument of gnome-terminal, x-terminal-emulator and xterm
    on Linux and of cmd on Windows is the target directory placed between two
    double quotes inside a fixed text, character for character.  The quoted
    region of such an argument is the directory when the directory holds no
    double quote, and differs from the directory whenever it holds one; the
    directory made of the letter a, a double quote and the letter b is an
    example. *)
Theorem inline_commands_unescaped :
  (forall dir,
      inline_command "linux" "gnome-terminal" dir =
        Some ("cd " ++ dquote ++ dir ++ dquote ++ "; exec bash")%string /\
      inline_command "linux" "x-terminal-emulator" dir =
        Some ("bash -c 'cd " ++ dquote ++ dir ++ dquote ++ "; exec bash'")%string /\
      inline_command "linux" "xterm" dir =
        Some ("bash -lc 'cd " ++ dquote ++ dir ++ dquote ++ "; exec bash'")%string /\
      inline_command "win32" "cmd" dir =
        Some ("cd /d " ++ dquote ++ dir ++ dquote)%string) /\
  (forall plt cmd dir s,
      In (plt, cmd) shell_candidates ->
      inline_command plt cmd dir = Some s ->
      (has_dquote dir = false -> quoted_region s = Some dir) /\
      (has_dquote dir = true -> quoted_region s <> Some dir)) /\
  (exists dir,
      has_dquote dir = true /\
      forall plt cmd,
        In (plt, cmd) shell_candidates ->
        exists s, inline_command plt cmd dir = Some s /\
                  quoted_region s = Some "a" /\
                  quoted_region s <> Some dir).
Proof.
  split; [|split].
  - intros dir. repeat split; reflexivity.
  - intros plt cmd dir s Hin Hs.
    destruct (inline_command_shape plt cmd dir s Hin Hs) as (pre & post & Hpre & ->).
    split.
    + intros Hdir. apply quoted_region_interpolated; assumption.
    + intros Hdir Hq. apply quoted_region_no_dquote in Hq. congruence.
  - exists ("a" ++ dquote ++ "b")%string. split; [reflexivity|].
    intros plt cmd Hin.
    repeat (destruct Hin as [Hin|Hin];
            [injection Hin as <- <-; eexists;
             split; [reflexivity | split; [reflexivity | discriminate]]|]).
    destruct Hin.
Qed.

Lemma inline_commands_unescaped_witness :
  inline_command "win32" "cmd" ("C:\my " ++ dquote ++ "x" ++ dquote ++ " dir")%string =
    Some ("cd /d " ++ dquote ++ "C:\my " ++ dquote ++ "x" ++ dquote ++ " dir"
            ++ dquote)%string /\
  quoted_region
    ("cd /d " ++ dquote ++ "C:\my " ++ dquote ++ "x" ++ dquote ++ " dir"
       ++ dquote)%string
  <> Some ("C:\my " ++ dquote ++ "x" ++ dquote ++ " dir")%string.
Proof.
  destruct inline_commands_unescaped as (Hshape & Hquote & _).
  split.
  - apply (Hshape ("C:\my " ++ dquote ++ "x" ++ dquote ++ " dir")%string).
  - apply (Hquote "win32" "cmd"
             ("C:\my " ++ dquote ++ "x" ++ dquote ++ " dir")%string).
    + simpl. tauto.
    + reflexivity.
    + reflexivity.
Defined.

(** ** The target directory *)

(** C10.  With a resource, or else with the document of the active editor,
    the directory both variants work on is [dirname] of the file system path
    of that URI, whether or not the path is itself a directory (the file
    system is never consulted).  The cascading callback runs the resolver at
    that directory: its spawn calls are an initial segment of the probe
    sequence for that directory and the fallback, when taken, opens the
    integrated terminal there.  The minimal callback passes that directory to
    alacritty. *)
Theorem target_is_dirname
  (h : host) (resource : option Uri) (u : Uri) (tr : trace) :
  fileUri h resource = Some u ->
  (exists ok ext n,
      Cascade.openSystemTerminal h (dirname h (fsPath u)) tr =
        Returns ok (tr ++ ext) /\
      spawn_calls ext =
        firstn n (probe_sequence (platform h) (dirname h (fsPath u))) /\
      Cascade.activate h resource tr =
        Returns tt
          (tr ++ ext ++
             if ok then [] else fallback_effects (dirname h (fsPath u)))) /\
  (exists ext,
      Minimal.activate h resource tr = Returns tt (tr ++ ext) /\
      spawn_calls ext =
        [("alacritty", ["--working-directory"; dirname h (fsPath u)])]) /\
  (forall r, fileUri h (Some r) = Some r) /\
  (forall editor,
      activeTextEditor h = Some editor ->
      fileUri h None = Some (uri (document editor))).
Proof.
  intros E. split; [|split; [|split]].
  - destruct (openSystemTerminal_run h (dirname h (fsPath u)) tr)
      as (ok & ext & n & Hrun & Hcalls & _).
    exists ok, ext, n. split; [exact Hrun | split; [exact Hcalls|]].
    rewrite (cascade_activate_run h resource u tr E ok _ Hrun).
    rewrite app_assoc. reflexivity.
  - destruct (minimal_activate_run h resource u tr E)
      as (ext & Hcalls & _ & Hrun).
    rewrite Hrun. eexists. split; [reflexivity|].
    rewrite spawn_calls_app, Hcalls.
    destruct (attempt_outcome _ _ _ _); reflexivity.
  - reflexivity.
  - intros editor Hed. unfold fileUri. rewrite Hed. reflexivity.
Qed.

(** A selected directory: the terminal opens at its parent. *)
Lemma target_is_dirname_witness :
  isDirectory (example_host "linux" (always starts)) "/home/me/projects/foo/src"
    = true /\
  (exists ok ext n,
      Cascade.openSystemTerminal (example_host "linux" (always starts))
        "/home/me/projects/foo" [] = Returns ok ([] ++ ext) /\
      spawn_calls ext = firstn n (probe_sequence "linux" "/home/me/projects/foo") /\
      Cascade.activate (example_host "linux" (always starts))
        (Some {| fsPath := "/home/me/projects/foo/src" |}) [] =
        Returns tt
          ([] ++ ext ++
             if ok then [] else fallback_effects "/home/me/projects/foo")) /\
  (exists ext,
      Minimal.activate (example_host "linux" (always starts))
        (Some {| fsPath := "/home/me/projects/foo/src" |}) [] =
        Returns tt ([] ++ ext) /\
      spawn_calls ext =
        [("alacritty", ["--working-directory"; "/home/me/projects/foo"])]).
Proof.
  destruct (target_is_dirname (example_host "linux" (always starts))
              (Some {| fsPath := "/home/me/projects/foo/src" |})
              {| fsPath := "/home/me/projects/foo/src" |} [] eq_refl)
    as (Hcascade & Hminimal & _).
  split; [reflexivity | split; [exact Hcascade | exact Hminimal]].
Defined.

(** ** Scenarios *)

Example dirname_of_file :
  posix_dirname "/home/me/projects/foo/src/index.js" = "/home/me/projects/foo/src".
Proof. reflexivity. Qed.

Example dirname_of_directory :
  posix_dirname "/home/me/projects/foo/src" = "/home/me/projects/foo".
Proof. reflexivity. Qed.

(** Linux, the first two candidates missing: three spawn calls, the third for
    xfce4-terminal at the target directory. *)
Example scenario_linux_third_candidate :
  Cascade.openSystemTerminal (example_host "linux" (fail_first 2))
    "/home/me/projects/foo/src" [] =
  Returns true
    [ Spawn "gnome-terminal"
        ["--"; "bash"; "-lc";
         ("cd " ++ dquote ++ "/home/me/projects/foo/src" ++ dquote
            ++ "; exec bash")%string] spawn_opts;
      OnError; SetTimeout 200;
      Spawn "konsole" ["--workdir"; "/home/me/projects/foo/src"] spawn_opts;
      OnError; SetTimeout 200;
      Spawn "xfce4-terminal"
        ["--working-directory"; "/home/me/projects/foo/src"] spawn_opts;
      OnError; SetTimeout 200 ].
Proof. reflexivity. Qed.

(** A selected directory in the cascading variant on Linux: gnome-terminal is
    started in the parent of the selection. *)
Example scenario_selected_directory :
  Cascade.activate (example_host "linux" (always starts))
    (Some {| fsPath := "/home/me/projects/foo/src" |}) [] =
  Returns tt
    [ Spawn "gnome-terminal"
        ["--"; "bash"; "-lc";
         ("cd " ++ dquote ++ "/home/me/projects/foo" ++ dquote
            ++ "; exec bash")%string] spawn_opts;
      OnError; SetTimeout 200 ].
Proof. reflexivity. Qed.

(** A synchronous throw of [spawn] counts as a failed attempt and registers
    no timer. *)
Example scenario_spawn_throws :
  Cascade.openSystemTerminal (example_host "win32" (always SpawnThrows))
    "C:\work" [] =
  Returns false
    [ Spawn "wt" ["-d"; "C:\work"] spawn_opts;
      Spawn "cmd"
        ["/c"; "start"; "cmd.exe"; "/K";
         ("cd /d " ++ dquote ++ "C:\work" ++ dquote)%string] spawn_opts ].
Proof. reflexivity. Qed.

(** * Further properties *)

(** ** The exact trace of a resolver run *)

Lemma launch_exact (delay : Z) (h : host) (cmd : string) (args : list string)
  (tr : trace) :
  launch delay h cmd args tr =
    Returns (settle delay (spawn h (spawn_count tr) cmd args))
            (tr ++ launch_effects delay h (spawn_count tr) cmd args).
Proof.
  unfold launch, launch_effects.
  destruct (spawn h (spawn_count tr) cmd args); [reflexivity|].
  rewrite <- app_assoc. reflexivity.
Qed.

Lemma spawn_count_launch_effects (delay : Z) (h : host) (k : nat)
  (cmd : string) (args : list string) :
  spawn_count (launch_effects delay h k cmd args) = 1.
Proof. unfold launch_effects. destruct (spawn h k cmd args); reflexivity. Qed.

Lemma attempt_outcome_cases (delay : Z) (h : host) (k : nat) (c : Candidate) :
  attempt_outcome delay h k c = Succeeded \/ attempt_outcome delay h k c = Failed.
Proof.
  unfold attempt_outcome.
  destruct (settle_outcome delay (spawn h k (fst c) (snd c))) as [[_ H]|[_ H]];
    auto.
Qed.

Lemma probe_exact (h : host) (cs : list Candidate) :
  forall tr : trace,
    Cascade.probe h cs tr =
      Returns (match first_success 200 h (spawn_count tr) cs with
               | Some _ => true
               | None => false
               end)
              (tr ++ probe_effects h (spawn_count tr) cs).
Proof.
  induction cs as [|[cmd args] rest IH]; intros tr.
  - simpl. unfold ret. rewrite app_nil_r. reflexivity.
  - cbn [Cascade.probe first_success probe_effects fst snd].
    unfold try_await, Cascade.spawnPromise. rewrite launch_exact.
    destruct (attempt_outcome_cases 200 h (spawn_count tr) (cmd, args)) as [Ho|Ho];
      rewrite Ho; unfold attempt_outcome, outcome_of in Ho; cbn [fst snd] in Ho;
      destruct (promise (settle 200 (spawn h (spawn_count tr) cmd args)));
      try discriminate.
    + rewrite app_nil_r. reflexivity.
    + rewrite IH, spawn_count_app, spawn_count_launch_effects, Nat.add_1_r.
      rewrite <- app_assoc.
      destruct (first_success 200 h (S (spawn_count tr)) rest); reflexivity.
Qed.

Lemma openSystemTerminal_exact (h : host) (targetDir : string) (tr : trace) :
  Cascade.openSystemTerminal h targetDir tr =
    Returns
      (match first_success 200 h (spawn_count tr)
               (probe_sequence (platform h) targetDir) with
       | Some _ => true
       | None => false
       end)
      (tr ++ probe_effects h (spawn_count tr)
               (probe_sequence (platform h) targetDir)).
Proof.
  rewrite openSystemTerminal_table, probe_sequence_table.
  destruct (candidate_table (platform h) targetDir) as [cs|].
  - apply probe_exact.
  - unfold ret. simpl. rewrite app_nil_r. reflexivity.
Qed.

(** X5 (resolver trace).  A run of the resolver adds to the trace, for each
    candidate it attempts and in the order of the probe sequence, the spawn
    call followed at once by the registration of the error listener and of a
    timer of 200 ms, or the spawn call alone when [spawn] throws; it stops
    after the first attempt that succeeds and returns whether there was
    one. *)
Theorem resolver_trace_shape (h : host) (targetDir : string) (tr : trace) :
  Cascade.openSystemTerminal h targetDir tr =
    Returns
      (match first_success 200 h (spawn_count tr)
               (probe_sequence (platform h) targetDir) with
       | Some _ => true
       | None => false
       end)
      (tr ++ probe_effects h (spawn_count tr)
               (probe_sequence (platform h) targetDir)).
Proof.
  rewrite openSystemTerminal_table, probe_sequence_table.
  destruct (candidate_table (platform h) targetDir) as [cs|].
  - rewrite probe_exact. reflexivity.
  - unfold ret. simpl. rewrite app_nil_r. reflexivity.
Qed.

(** ** What the result of the resolver means *)

Lemma first_success_some_inv (delay : Z) (h : host) (cs : list Candidate) :
  forall k n,
    first_success delay h k cs = Some n ->
    (exists c, nth_error cs n = Some c /\
               attempt_outcome delay h (k + n) c = Succeeded) /\
    (forall i c, i < n -> nth_error cs i = Some c ->
                 attempt_outcome delay h (k + i) c = Failed).
Proof.
  induction cs as [|c0 rest IH]; intros k n H; simpl in H; [discriminate|].
  destruct (attempt_outcome_cases delay h k c0) as [Ho|Ho]; rewrite Ho in H.
  - injection H as <-. split.
    + exists c0. rewrite Nat.add_0_r. split; [reflexivity | exact Ho].
    + intros i c Hi. lia.
  - destruct (first_success delay h (S k) rest) as [m|] eqn:E; [|discriminate].
    injection H as <-. destruct (IH (S k) m E) as [(c & Hc & Hok) Hbefore].
    split.
    + exists c. split; [exact Hc|].
      replace (k + S m) with (S k + m) by lia. exact Hok.
    + intros i ci Hi Hci. destruct i as [|i].
      * injection Hci as <-. rewrite Nat.add_0_r. exact Ho.
      * replace (k + S i) with (S k + i) by lia.
        apply Hbefore; [lia | exact Hci].
Qed.

Lemma first_success_none_inv (delay : Z) (h : host) (cs : list Candidate) :
  forall k,
    first_success delay h k cs = None ->
    forall i c, nth_error cs i = Some c ->
                attempt_outcome delay h (k + i) c = Failed.
Proof.
  induction cs as [|c0 rest IH]; intros k H i c Hc; simpl in H.
  - destruct i; discriminate.
  - destruct (attempt_outcome_cases delay h k c0) as [Ho|Ho]; rewrite Ho in H;
      [discriminate|].
    destruct (first_success delay h (S k) rest) eqn:E; [discriminate|].
    destruct i as [|i].
    + injection Hc as <-. rewrite Nat.add_0_r. exact Ho.
    + replace (k + S i) with (S k + i) by lia. exact (IH (S k) E i c Hc).
Qed.

(** X1 (meaning of the result).  The resolver returns true exactly when some
    candidate of the probe sequence would launch at its position.  In every
    run all attempts before the last spawn call failed; when the result is
    true the last spawn call is the one that succeeded, and when it is false
    every candidate of the sequence was tried and failed. *)
Theorem resolver_result_sound (h : host) (targetDir : string) (tr : trace) :
  exists (ok : bool) (ext : trace),
    Cascade.openSystemTerminal h targetDir tr = Returns ok (tr ++ ext) /\
    (ok = true <->
     exists i c,
       nth_error (probe_sequence (platform h) targetDir) i = Some c /\
       attempt_outcome 200 h (spawn_count tr + i) c = Succeeded) /\
    (forall i c,
        S i < spawn_count ext ->
        nth_error (probe_sequence (platform h) targetDir) i = Some c ->
        attempt_outcome 200 h (spawn_count tr + i) c = Failed) /\
    (ok = true ->
     exists c,
       nth_error (probe_sequence (platform h) targetDir)
                 (pred (spawn_count ext)) = Some c /\
       attempt_outcome 200 h (spawn_count tr + pred (spawn_count ext)) c
         = Succeeded) /\
    (ok = false ->
     spawn_calls ext = probe_sequence (platform h) targetDir /\
     forall i c,
       nth_error (probe_sequence (platform h) targetDir) i = Some c ->
       attempt_outcome 200 h (spawn_count tr + i) c = Failed).
Proof.
  rewrite openSystemTerminal_table, probe_sequence_table.
  destruct (candidate_table (platform h) targetDir) as [cs|].
  - destruct (probe_run h cs tr) as (ext & Hrun & Hcalls & _).
    destruct (first_success 200 h (spawn_count tr) cs) as [n|] eqn:E.
    + destruct (first_success_some_inv 200 h cs _ n E) as [(c & Hc & Hok) Hbefore].
      assert (Hn : spawn_count ext = S n).
      { rewrite spawn_count_calls, Hcalls, length_firstn.
        apply Nat.min_l. apply Nat.le_succ_l. apply nth_error_Some. congruence. }
      exists true, ext. rewrite Hn. cbn [pred].
      split; [exact Hrun | split; [|split; [|split]]].
      * split; [intros _; exists n, c; auto | reflexivity].
      * intros i ci Hi. apply Hbefore. lia.
      * intros _. exists c. auto.
      * discriminate.
    + pose proof (first_success_none_inv 200 h cs _ E) as Hall.
      exists false, ext.
      split; [exact Hrun | split; [|split; [|split]]].
      * split; [discriminate|]. intros (i & c & Hc & Hok).
        rewrite (Hall i c Hc) in Hok. discriminate.
      * intros i c _. apply Hall.
      * discriminate.
      * intros _. split; [exact Hcalls | exact Hall].
  - exists false, []. unfold ret. rewrite app_nil_r.
    split; [reflexivity | split; [|split; [|split]]].
    + split; [discriminate|]. intros (i & c & Hc & _). destruct i; discriminate.
    + intros i c _ Hc. destruct i; discriminate.
    + discriminate.
    + intros _. split; [reflexivity|]. intros i c Hc. destruct i; discriminate.
Qed.

(** ** Repeated runs *)

Lemma first_success_stateless (h : host) (cs : list Candidate) :
  stateless_spawn h ->
  forall k k', first_success 200 h k cs = first_success 200 h k' cs.
Proof.
  intros Hs. induction cs as [|c rest IH]; intros k k'; simpl; [reflexivity|].
  unfold attempt_outcome. rewrite (Hs k k'), (IH (S k) (S k')). reflexivity.
Qed.

Lemma probe_effects_stateless (h : host) (cs : list Candidate) :
  stateless_spawn h ->
  forall k k', probe_effects h k cs = probe_effects h k' cs.
Proof.
  intros Hs. induction cs as [|c rest IH]; intros k k'; simpl; [reflexivity|].
  unfold attempt_outcome, launch_effects.
  rewrite (Hs k k'), (IH (S k) (S k')). reflexivity.
Qed.

(** X2 (repeatable).  On a host whose [spawn] answers do not depend on the
    calls made before, two resolver runs in a row for the same directory
    return the same result and add the same effects, one copy after the
    other: the resolver keeps nothing between calls. *)
Theorem resolver_repeatable (h : host) (targetDir : string) (tr : trace) :
  stateless_spawn h ->
  exists (ok : bool) (ext : trace),
    Cascade.openSystemTerminal h targetDir tr = Returns ok (tr ++ ext) /\
    (ok1 <- Cascade.openSystemTerminal h targetDir ;;
     ok2 <- Cascade.openSystemTerminal h targetDir ;;
     ret (ok1, ok2)) tr = Returns (ok, ok) (tr ++ ext ++ ext).
Proof.
  intros Hs. unfold bind.
  rewrite (openSystemTerminal_exact h targetDir tr).
  rewrite (openSystemTerminal_exact h targetDir (tr ++ _)).
  set (cs := probe_sequence (platform h) targetDir).
  rewrite (first_success_stateless h cs Hs (spawn_count (tr ++ _)) (spawn_count tr)).
  rewrite (probe_effects_stateless h cs Hs (spawn_count (tr ++ _)) (spawn_count tr)).
  eexists _, _. split; [reflexivity|].
  unfold ret. rewrite <- app_assoc. reflexivity.
Qed.

Lemma resolver_repeatable_witness :
  exists (ok : bool) (ext : trace),
    Cascade.openSystemTerminal (example_host "darwin" (always not_found))
      "/home/me" [] = Returns ok ([] ++ ext) /\
    (ok1 <- Cascade.openSystemTerminal (example_host "darwin" (always not_found))
              "/home/me" ;;
     ok2 <- Cascade.openSystemTerminal (example_host "darwin" (always not_found))
              "/home/me" ;;
     ret (ok1, ok2)) [] = Returns (ok, ok) ([] ++ ext ++ ext).
Proof.
  apply (resolver_repeatable (example_host "darwin" (always not_found))
           "/home/me" []).
  intros i j cmd args. reflexivity.
Defined.

(** ** How many processes a run can start *)

(** X3 (spawn bounds).  A resolver run makes at most five spawn calls; on
    'darwin' and on 'win32' it makes one or two, on 'linux' between one and
    five; so on a platform with candidates the first candidate is always
    tried. *)
Theorem resolver_spawn_bounds (h : host) (targetDir : string) (tr : trace) :
  exists (ok : bool) (ext : trace),
    Cascade.openSystemTerminal h targetDir tr = Returns ok (tr ++ ext) /\
    spawn_count ext <= 5 /\
    (platform h = "darwin" \/ platform h = "win32" ->
     1 <= spawn_count ext <= 2) /\
    (platform h = "linux" -> 1 <= spawn_count ext).
Proof.
  destruct (openSystemTerminal_run h targetDir tr)
    as (ok & ext & n & Hrun & Hcalls & Hpos & Hall & _).
  exists ok, ext. split; [exact Hrun|].
  set (cs := probe_sequence (platform h) targetDir) in *.
  assert (Hlen : spawn_count ext <= length cs /\
                 (1 <= length cs -> 1 <= spawn_count ext)).
  { rewrite spawn_count_calls. destruct ok.
    - rewrite Hcalls, length_firstn. specialize (Hpos eq_refl). lia.
    - rewrite (Hall eq_refl). lia. }
  destruct Hlen as [Hle Hge].
  assert (Hcs : forall plt, platform h = plt ->
                            length cs = length (probe_sequence plt targetDir)).
  { intros plt <-. reflexivity. }
  split; [|split].
  - unfold cs in Hle. rewrite probe_sequence_table in Hle.
    unfold candidate_table in Hle.
    destruct (platform h =? "darwin")%string;
      [|destruct (platform h =? "win32")%string;
        [|destruct (platform h =? "linux")%string]]; simpl in Hle; lia.
  - intros [Hp|Hp]; rewrite (Hcs _ Hp) in Hle, Hge; simpl in Hle, Hge; lia.
  - intros Hp. rewrite (Hcs _ Hp) in Hge. simpl in Hge. lia.
Qed.

(** ** Detached children *)

Lemma spawn_options_of_app (tr1 tr2 : trace) :
  spawn_options_of (tr1 ++ tr2) = spawn_options_of tr1 ++ spawn_options_of tr2.
Proof.
  induction tr1 as [|e tr1 IH]; simpl; [reflexivity|].
  destruct e; simpl; rewrite IH; reflexivity.
Qed.

Lemma launch_effects_detached (delay : Z) (h : host) (k : nat)
  (cmd : string) (args : list string) :
  Forall detached_ignored (spawn_options_of (launch_effects delay h k cmd args)).
Proof.
  unfold launch_effects.
  destruct (spawn h k cmd args); simpl; repeat constructor.
Qed.

Lemma probe_effects_detached (h : host) (cs : list Candidate) :
  forall k, Forall detached_ignored (spawn_options_of (probe_effects h k cs)).
Proof.
  induction cs as [|c rest IH]; intros k; [constructor|].
  cbn [probe_effects]. rewrite spawn_options_of_app. apply Forall_app. split.
  - apply launch_effects_detached.
  - destruct (attempt_outcome 200 h k c); [constructor | apply IH | apply IH].
Qed.

Lemma minimal_activate_exact
  (h : host) (resource : option Uri) (u : Uri) (tr : trace) :
  fileUri h resource = Some u ->
  Minimal.activate h resource tr =
    Returns tt
      (tr ++
       launch_effects 200 h (spawn_count tr) "alacritty"
         ["--working-directory"; dirname h (fsPath u)] ++
       match attempt_outcome 200 h (spawn_count tr)
               ("alacritty", ["--working-directory"; dirname h (fsPath u)])
       with
       | Succeeded => []
       | _ => [ShowErrorMessage "Failed to open Alacritty (is it installed?)."]
       end).
Proof.
  intros E. unfold Minimal.activate, Minimal.openAlacrittyTmux. rewrite E.
  unfold try_await. rewrite launch_exact.
  set (c := ("alacritty", ["--working-directory"; dirname h (fsPath u)])).
  destruct (attempt_outcome_cases 200 h (spawn_count tr) c) as [Ho|Ho];
    rewrite Ho; unfold attempt_outcome, outcome_of in Ho; cbn [fst snd c] in Ho;
    destruct (promise (settle 200 _)); try discriminate.
  - unfold ret. rewrite app_nil_r. reflexivity.
  - unfold emit. rewrite <- app_assoc. reflexivity.
Qed.

Lemma cascade_activate_exact
  (h : host) (resource : option Uri) (u : Uri) (tr : trace) :
  fileUri h resource = Some u ->
  Cascade.activate h resource tr =
    Returns tt
      (tr ++
       probe_effects h (spawn_count tr)
         (probe_sequence (platform h) (dirname h (fsPath u))) ++
       match first_success 200 h (spawn_count tr)
               (probe_sequence (platform h) (dirname h (fsPath u))) with
       | Some _ => []
       | None => fallback_effects (dirname h (fsPath u))
       end).
Proof.
  intros E.
  rewrite (cascade_activate_run h resource u tr E _ _
             (openSystemTerminal_exact h (dirname h (fsPath u)) tr)).
  rewrite <- app_assoc.
  destruct (first_success 200 h (spawn_count tr) _); reflexivity.
Qed.

(** X4 (detached children).  Whatever the host and the resource, every spawn
    call of a run of either callback passes the options
    [{ detached: true, stdio: 'ignore' }]. *)
Theorem every_spawn_detached (h : host) (resource : option Uri) (tr : trace) :
  (exists ext,
      Cascade.activate h resource tr = Returns tt (tr ++ ext) /\
      Forall detached_ignored (spawn_options_of ext)) /\
  (exists ext,
      Minimal.activate h resource tr = Returns tt (tr ++ ext) /\
      Forall detached_ignored (spawn_options_of ext)).
Proof.
  destruct (fileUri h resource) as [u|] eqn:E; split.
  - rewrite (cascade_activate_exact h resource u tr E).
    eexists. split; [reflexivity|].
    rewrite spawn_options_of_app. apply Forall_app. split.
    + apply probe_effects_detached.
    + destruct (first_success 200 h (spawn_count tr) _); constructor.
  - rewrite (minimal_activate_exact h resource u tr E).
    eexists. split; [reflexivity|].
    rewrite spawn_options_of_app. apply Forall_app. split.
    + apply launch_effects_detached.
    + destruct (attempt_outcome 200 h (spawn_count tr) _); constructor.
  - rewrite (cascade_activate_no_context h resource tr E).
    eexists. split; [reflexivity | constructor].
  - rewrite (minimal_activate_no_context h resource tr E).
    eexists. split; [reflexivity | constructor].
Qed.

(** ** What the user sees *)

Lemma ui_effects_launch_effects (delay : Z) (h : host) (k : nat)
  (cmd : string) (args : list string) :
  ui_effects (launch_effects delay h k cmd args) = [].
Proof. unfold launch_effects. destruct (spawn h k cmd args); reflexivity. Qed.

Lemma ui_effects_probe_effects (h : host) (cs : list Candidate) :
  forall k, ui_effects (probe_effects h k cs) = [].
Proof.
  induction cs as [|c rest IH]; intros k; [reflexivity|].
  cbn [probe_effects]. rewrite ui_effects_app, ui_effects_launch_effects.
  destruct (attempt_outcome 200 h k c); simpl; auto.
Qed.

(** X6 (user interface of the cascading callback).  With a directory
    context, what the cascading callback shows is decided by the probe alone:
    nothing at all when some candidate launches, and otherwise exactly the
    integrated terminal at the target directory, its [show(true)] and the
    information message.  It never shows an error message. *)
Theorem cascade_ui_effects
  (h : host) (resource : option Uri) (u : Uri) (tr : trace) :
  fileUri h resource = Some u ->
  exists ext,
    Cascade.activate h resource tr = Returns tt (tr ++ ext) /\
    ui_effects ext =
      match first_success 200 h (spawn_count tr)
              (probe_sequence (platform h) (dirname h (fsPath u))) with
      | Some _ => []
      | None => fallback_effects (dirname h (fsPath u))
      end /\
    existsb is_error_message ext = false.
Proof.
  intros E. rewrite (cascade_activate_exact h resource u tr E).
  eexists. split; [reflexivity|].
  assert (Hui : forall k cs,
             existsb is_error_message (probe_effects h k cs) = false).
  { intros k cs. pose proof (ui_effects_probe_effects h cs k) as H.
    induction (probe_effects h k cs) as [|e l IH]; [reflexivity|].
    destruct e; simpl in *; try discriminate; auto. }
  split.
  - rewrite ui_effects_app, ui_effects_probe_effects.
    destruct (first_success 200 h (spawn_count tr) _); reflexivity.
  - rewrite existsb_app, Hui.
    destruct (first_success 200 h (spawn_count tr) _); reflexivity.
Qed.

Lemma cascade_ui_effects_witness :
  exists ext,
    Cascade.activate (example_host "linux" (fail_first 3))
      (Some {| fsPath := "/home/me/notes.txt" |}) [] = Returns tt ([] ++ ext) /\
    ui_effects ext = [] /\
    existsb is_error_message ext = false.
Proof.
  apply (cascade_ui_effects (example_host "linux" (fail_first 3))
           (Some {| fsPath := "/home/me/notes.txt" |})
           {| fsPath := "/home/me/notes.txt" |} []).
  reflexivity.
Defined.

(** X7 (unknown platform).  On a platform other than 'darwin', 'win32' and
    'linux' the cascading callback, given a directory context, goes straight
    to the integrated terminal at the target directory and the information
    message, without a single spawn call. *)
Theorem unknown_platform_opens_integrated
  (h : host) (resource : option Uri) (u : Uri) (tr : trace) :
  fileUri h resource = Some u ->
  platform h <> "darwin" ->
  platform h <> "win32" ->
  platform h <> "linux" ->
  Cascade.activate h resource tr =
    Returns tt
      (tr ++
         [ CreateTerminal ("Terminal — " ++ dirname h (fsPath u))%string
             (dirname h (fsPath u));
           TerminalShow true;
           ShowInformationMessage
             "Opened VS Code integrated terminal (system terminal not found)." ]).
Proof.
  intros E Hd Hw Hl.
  assert (Hrun : Cascade.openSystemTerminal h (dirname h (fsPath u)) tr
                 = Returns false tr).
  { unfold Cascade.openSystemTerminal.
    apply String.eqb_neq in Hd, Hw, Hl. rewrite Hd, Hw, Hl. reflexivity. }
  rewrite (cascade_activate_run h resource u tr E false tr Hrun). reflexivity.
Qed.

Lemma unknown_platform_opens_integrated_witness :
  Cascade.activate (example_host "freebsd" (always starts))
    (Some {| fsPath := "/home/me/notes.txt" |}) [] =
    Returns tt
      ([] ++
         [ CreateTerminal "Terminal — /home/me" "/home/me";
           TerminalShow true;
           ShowInformationMessage
             "Opened VS Code integrated terminal (system terminal not found)." ]).
Proof.
  apply (unknown_platform_opens_integrated (example_host "freebsd" (always starts))
           (Some {| fsPath := "/home/me/notes.txt" |})
           {| fsPath := "/home/me/notes.txt" |} []);
    [reflexivity | discriminate | discriminate | discriminate].
Defined.

(** X12 (no fallback in the minimal variant).  Whatever the host and the
    resource, a run of the minimal callback makes at most one spawn call and
    shows at most one thing, which is an error message: it never creates an
    integrated terminal and never shows an information message. *)
Theorem minimal_never_falls_back (h : host) (resource : option Uri) (tr : trace) :
  exists ext,
    Minimal.activate h resource tr = Returns tt (tr ++ ext) /\
    spawn_count ext <= 1 /\
    length (ui_effects ext) <= 1 /\
    forallb is_error_message (ui_effects ext) = true.
Proof.
  destruct (fileUri h resource) as [u|] eqn:E.
  - rewrite (minimal_activate_exact h resource u tr E).
    eexists. split; [reflexivity|].
    rewrite spawn_count_app, spawn_count_launch_effects,
            ui_effects_app, ui_effects_launch_effects.
    destruct (attempt_outcome 200 h (spawn_count tr) _); simpl;
      repeat split; auto.
  - rewrite (minimal_activate_no_context h resource tr E).
    eexists. split; [reflexivity|]. simpl. repeat split; auto.
Qed.

(** ** Errors that come too late *)

(** X9 (late error).  When the child of the first candidate reports its error
    only after the 200 ms have passed, the resolver has already taken the
    attempt for a success: it returns true after that single spawn call, no
    other candidate is tried, and the callback shows nothing, neither the
    integrated terminal nor a message. *)
Theorem late_error_masks_failure
  (h : host) (resource : option Uri) (u : Uri) (c : Candidate)
  (rest : list Candidate) (tr : trace) (t : Z) (tie : bool) :
  fileUri h resource = Some u ->
  candidate_table (platform h) (dirname h (fsPath u)) = Some (c :: rest) ->
  spawn h (spawn_count tr) (fst c) (snd c) = SpawnChild (Some t) tie ->
  (200 < t)%Z ->
  Cascade.openSystemTerminal h (dirname h (fsPath u)) tr =
    Returns true
      (tr ++ [Spawn (fst c) (snd c) spawn_opts; OnError; SetTimeout 200]) /\
  Cascade.activate h resource tr =
    Returns tt
      (tr ++ [Spawn (fst c) (snd c) spawn_opts; OnError; SetTimeout 200]).
Proof.
  intros E Htable Hspawn Hlate.
  assert (Hrun : Cascade.openSystemTerminal h (dirname h (fsPath u)) tr =
                 Returns true
                   (tr ++ [Spawn (fst c) (snd c) spawn_opts; OnError;
                           SetTimeout 200])).
  { rewrite openSystemTerminal_exact, probe_sequence_table, Htable.
    cbn [first_success probe_effects].
    unfold attempt_outcome, launch_effects. rewrite Hspawn.
    destruct (settle_timed t tie) as (_ & Hok & _). rewrite (Hok Hlate).
    reflexivity. }
  split; [exact Hrun|].
  rewrite (cascade_activate_run h resource u tr E true _ Hrun).
  rewrite app_nil_r. reflexivity.
Qed.

Lemma late_error_masks_failure_witness :
  Cascade.openSystemTerminal
    (example_host "linux" (always (SpawnChild (Some 750%Z) false)))
    "/home/me" [] =
    Returns true
      ([] ++ [ Spawn "gnome-terminal"
                 ["--"; "bash"; "-lc";
                  ("cd " ++ dquote ++ "/home/me" ++ dquote ++ "; exec bash")%string]
                 spawn_opts;
               OnError; SetTimeout 200 ]) /\
  Cascade.activate
    (example_host "linux" (always (SpawnChild (Some 750%Z) false)))
    (Some {| fsPath := "/home/me/notes.txt" |}) [] =
    Returns tt
      ([] ++ [ Spawn "gnome-terminal"
                 ["--"; "bash"; "-lc";
                  ("cd " ++ dquote ++ "/home/me" ++ dquote ++ "; exec bash")%string]
                 spawn_opts;
               OnError; SetTimeout 200 ]).
Proof.
  apply (late_error_masks_failure
           (example_host "linux" (always (SpawnChild (Some 750%Z) false)))
           (Some {| fsPath := "/home/me/notes.txt" |})
           {| fsPath := "/home/me/notes.txt" |}
           ("gnome-terminal",
            ["--"; "bash"; "-lc";
             ("cd " ++ dquote ++ "/home/me" ++ dquote ++ "; exec bash")%string])
           (tl (Cascade.candidates "/home/me")) [] 750%Z false);
    [reflexivity | reflexivity | reflexivity | reflexivity].
Defined.

(** ** Children and their timers *)

(** X10 (unref and timer of every child).  When [spawn] returns a child, the
    launch attempt registers the listener and one timer, and the timer
    callback unreferences the child exactly once, also when the attempt has
    already failed.  When [spawn] throws, the attempt fails with nothing
    registered and nothing unreferenced. *)
Theorem child_unref_and_timer
  (h : host) (cmd : string) (args : list string) (tr : trace) :
  exists (a : attempt) (ext : trace),
    Cascade.spawnPromise h cmd args tr = Returns a (tr ++ ext) /\
    (spawn h (spawn_count tr) cmd args = SpawnThrows ->
     outcome_of a = Failed /\ unrefs a = 0 /\
     ext = [Spawn cmd args spawn_opts]) /\
    (forall t tie,
        spawn h (spawn_count tr) cmd args = SpawnChild t tie ->
        unrefs a = 1 /\
        ext = [Spawn cmd args spawn_opts; OnError; SetTimeout 200]).
Proof.
  unfold Cascade.spawnPromise. rewrite launch_exact.
  eexists _, _. split; [reflexivity|]. unfold launch_effects. split.
  - intros ->. repeat split.
  - intros t tie ->. split; [|reflexivity].
    unfold settle. rewrite run_loop_unrefs, schedule_timer_once. reflexivity.
Qed.

(** ** The decision window *)

Lemma timeouts_launch_effects (delay : Z) (h : host) (k : nat)
  (cmd : string) (args : list string) :
  timeouts (launch_effects delay h k cmd args) =
  match spawn h k cmd args with
  | SpawnThrows => []
  | SpawnChild _ _ => [delay]
  end.
Proof. unfold launch_effects. destruct (spawn h k cmd args); reflexivity. Qed.

Lemma spawn_calls_launch_effects (delay : Z) (h : host) (k : nat)
  (cmd : string) (args : list string) :
  spawn_calls (launch_effects delay h k cmd args) = [(cmd, args)].
Proof. unfold launch_effects. destruct (spawn h k cmd args); reflexivity. Qed.

(** One launch: the timer and the boundary. *)
Lemma launch_window (delay : Z) (h : host) (k : nat)
  (cmd : string) (args : list string) :
  window_governs delay (spawn h k cmd args)
    (settle delay (spawn h k cmd args))
    (launch_effects delay h k cmd args).
Proof.
  unfold window_governs. rewrite timeouts_launch_effects.
  destruct (spawn h k cmd args) as [|t tie]; [reflexivity|].
  split; [reflexivity|].
  destruct (settle_outcome delay (SpawnChild t tie)) as [[He Ho]|[He Ho]];
    rewrite Ho; destruct t as [te|]; simpl in He.
  - split; [reflexivity|]. intros Hlate. destruct He as [He|[He _]]; lia.
  - contradiction.
  - split; [|reflexivity]. intros Hearly. exfalso. apply He. left. exact Hearly.
  - reflexivity.
Qed.

(** Every child of a run of the probe loop has its timer of 200 ms. *)
Lemma probe_effects_timers (h : host) (cs : list Candidate) :
  forall k,
    timeouts (probe_effects h k cs) =
    repeat 200%Z (spawned_children h k (spawn_calls (probe_effects h k cs))).
Proof.
  induction cs as [|[cmd args] rest IH]; intros k; [reflexivity|].
  cbn [probe_effects fst snd].
  rewrite timeouts_app, spawn_calls_app, timeouts_launch_effects,
          spawn_calls_launch_effects.
  cbn [app spawned_children fst snd]. rewrite repeat_app.
  f_equal.
  - destruct (spawn h k cmd args); reflexivity.
  - destruct (attempt_outcome 200 h k (cmd, args)); [reflexivity | apply IH | apply IH].
Qed.

Lemma attempt_fails_before (h : host) :
  every_error_before 200 h ->
  forall k c, attempt_outcome 200 h k c = Failed.
Proof.
  intros Hb k c. unfold attempt_outcome.
  destruct (Hb k (fst c) (snd c)) as (te & tie & -> & Hlt).
  destruct (settle_timed te tie) as (Hf & _). exact (Hf Hlt).
Qed.

Lemma attempt_succeeds_after (h : host) :
  every_error_after 200 h ->
  forall k c, attempt_outcome 200 h k c = Succeeded.
Proof.
  intros Ha k c. unfold attempt_outcome.
  destruct (Ha k (fst c) (snd c)) as (te & tie & -> & Hgt).
  destruct (settle_timed te tie) as (_ & Hs & _). exact (Hs Hgt).
Qed.

(** C8.  One constant, 200 ms, is the decision window of every launch
    attempt, whatever the command, the arguments, the platform and the
    variant.  Each call of [spawnPromise] and of [openAlacrittyTmux] that
    gets a child registers exactly one timer, of 200 ms, fails when the
    child's error comes before 200 ms and succeeds when it comes after 200 ms
    or never (none is registered when [spawn] throws).  In a whole run of
    either callback the timers are one of 200 ms for each child spawned and
    no other.  When every child reports its error before 200 ms, the
    resolver tries every candidate of its platform and returns false and the
    minimal callback shows its error message; when every child reports it
    after 200 ms, the resolver returns true after the first candidate and
    the minimal callback shows nothing. *)
Theorem single_decision_window (h : host) (tr : trace) :
  (forall cmd args,
      exists a ext,
        Cascade.spawnPromise h cmd args tr = Returns a (tr ++ ext) /\
        window_governs 200 (spawn h (spawn_count tr) cmd args) a ext) /\
  (forall targetDir,
      exists a ext,
        Minimal.openAlacrittyTmux h targetDir tr = Returns a (tr ++ ext) /\
        window_governs 200
          (spawn h (spawn_count tr) "alacritty"
             ["--working-directory"; targetDir]) a ext) /\
  (forall resource,
      exists ext,
        Cascade.activate h resource tr = Returns tt (tr ++ ext) /\
        timeouts ext =
          repeat 200%Z
            (spawned_children h (spawn_count tr) (spawn_calls ext))) /\
  (forall resource,
      exists ext,
        Minimal.activate h resource tr = Returns tt (tr ++ ext) /\
        timeouts ext =
          repeat 200%Z
            (spawned_children h (spawn_count tr) (spawn_calls ext))) /\
  (every_error_before 200 h ->
   (forall targetDir,
       exists ext,
         Cascade.openSystemTerminal h targetDir tr = Returns false (tr ++ ext) /\
         spawn_calls ext = probe_sequence (platform h) targetDir) /\
   (forall resource u,
       fileUri h resource = Some u ->
       exists ext,
         Minimal.activate h resource tr = Returns tt (tr ++ ext) /\
         ui_effects ext =
           [ShowErrorMessage "Failed to open Alacritty (is it installed?)."])) /\
  (every_error_after 200 h ->
   (forall targetDir,
       exists ext,
         Cascade.openSystemTerminal h targetDir tr =
           Returns
             (match probe_sequence (platform h) targetDir with
              | [] => false
              | _ :: _ => true
              end) (tr ++ ext) /\
         spawn_calls ext = firstn 1 (probe_sequence (platform h) targetDir)) /\
   (forall resource u,
       fileUri h resource = Some u ->
       exists ext,
         Minimal.activate h resource tr = Returns tt (tr ++ ext) /\
         ui_effects ext = [])).
Proof.
  split; [|split; [|split; [|split; [|split]]]].
  - intros cmd args. unfold Cascade.spawnPromise. rewrite launch_exact.
    eexists _, _. split; [reflexivity | apply launch_window].
  - intros targetDir. unfold Minimal.openAlacrittyTmux. rewrite launch_exact.
    eexists _, _. split; [reflexivity | apply launch_window].
  - intros resource. destruct (fileUri h resource) as [u|] eqn:E.
    + rewrite (cascade_activate_exact h resource u tr E).
      eexists. split; [reflexivity|].
      rewrite timeouts_app, spawn_calls_app, probe_effects_timers.
      destruct (first_success 200 h (spawn_count tr) _); simpl;
        rewrite !app_nil_r; reflexivity.
    + rewrite (cascade_activate_no_context h resource tr E).
      eexists. split; reflexivity.
  - intros resource. destruct (fileUri h resource) as [u|] eqn:E.
    + rewrite (minimal_activate_exact h resource u tr E).
      eexists. split; [reflexivity|].
      rewrite timeouts_app, spawn_calls_app, timeouts_launch_effects,
              spawn_calls_launch_effects.
      destruct (attempt_outcome 200 h (spawn_count tr) _); simpl;
        destruct (spawn h (spawn_count tr) "alacritty" _); reflexivity.
    + rewrite (minimal_activate_no_context h resource tr E).
      eexists. split; reflexivity.
  - intros Hb. pose proof (attempt_fails_before h Hb) as Hfail. split.
    + intros targetDir.
      rewrite openSystemTerminal_table, probe_sequence_table.
      destruct (candidate_table (platform h) targetDir) as [cs|].
      * destruct (probe_run h cs tr) as (ext & Hrun & Hcalls & _).
        rewrite first_success_none in Hrun, Hcalls by (intros; apply Hfail).
        exists ext. split; assumption.
      * exists []. unfold ret. rewrite app_nil_r. split; reflexivity.
    + intros resource u E. rewrite (minimal_activate_exact h resource u tr E).
      eexists. split; [reflexivity|].
      rewrite Hfail, ui_effects_app, ui_effects_launch_effects. reflexivity.
  - intros Ha. pose proof (attempt_succeeds_after h Ha) as Hok. split.
    + intros targetDir.
      rewrite openSystemTerminal_table, probe_sequence_table.
      destruct (candidate_table (platform h) targetDir) as [[|c rest]|].
      * exists []. simpl. unfold ret. rewrite app_nil_r. split; reflexivity.
      * destruct (probe_run h (c :: rest) tr) as (ext & Hrun & Hcalls & _).
        cbn [first_success] in Hrun, Hcalls. rewrite Hok in Hrun, Hcalls.
        exists ext. split; assumption.
      * exists []. unfold ret. rewrite app_nil_r. split; reflexivity.
    + intros resource u E. rewrite (minimal_activate_exact h resource u tr E).
      eexists. split; [reflexivity|].
      rewrite Hok, ui_effects_app, ui_effects_launch_effects. reflexivity.
Qed.

(** An error after 199 ms fails the attempt and one after 201 ms does not,
    for xterm as for alacritty; both register the timer of 200 ms. *)
Lemma single_decision_window_witness :
  (exists a ext,
      Cascade.spawnPromise (example_host "linux" (errors_at 199)) "xterm" [] []
        = Returns a ([] ++ ext) /\
      timeouts ext = [200%Z] /\ outcome_of a = Failed) /\
  (exists a ext,
      Minimal.openAlacrittyTmux (example_host "linux" (errors_at 201)) "/home/me" []
        = Returns a ([] ++ ext) /\
      timeouts ext = [200%Z] /\ outcome_of a = Succeeded) /\
  (exists ext,
      Cascade.openSystemTerminal (example_host "darwin" (errors_at 199)) "/home/me" []
        = Returns false ([] ++ ext) /\
      spawn_calls ext = probe_sequence "darwin" "/home/me") /\
  (exists ext,
      Cascade.openSystemTerminal (example_host "darwin" (errors_at 201)) "/home/me" []
        = Returns true ([] ++ ext) /\
      spawn_calls ext = [("open", ["-a"; "Terminal"; "/home/me"])]).
Proof.
  split; [|split; [|split]].
  - destruct (single_decision_window (example_host "linux" (errors_at 199)) [])
      as (H & _).
    destruct (H "xterm" []) as (a & ext & Hrun & Ht & Hbefore & _).
    exists a, ext. split; [exact Hrun | split; [exact Ht|]].
    apply Hbefore. reflexivity.
  - destruct (single_decision_window (example_host "linux" (errors_at 201)) [])
      as (_ & H & _).
    destruct (H "/home/me") as (a & ext & Hrun & Ht & _ & Hafter).
    exists a, ext. split; [exact Hrun | split; [exact Ht|]].
    apply Hafter. reflexivity.
  - destruct (single_decision_window (example_host "darwin" (errors_at 199)) [])
      as (_ & _ & _ & _ & H & _).
    apply H. intros i cmd args. exists 199%Z, false. split; reflexivity.
  - destruct (single_decision_window (example_host "darwin" (errors_at 201)) [])
      as (_ & _ & _ & _ & _ & H).
    apply H. intros i cmd args. exists 201%Z, false. split; reflexivity.
Defined.

(** ** The logger *)

Lemma createLogger_existing (e : Logging.env) (st : Logging.state)
  (l : Logging.Logger) :
  Logging.logger st = Some l ->
  Logging.createLogger e st = (Logging.Returned l, st).
Proof. intros H. unfold Logging.createLogger. rewrite H. reflexivity. Qed.

Lemma createLogger_calls_existing (l : Logging.Logger) (es : list Logging.env) :
  forall st,
    Logging.logger st = Some l ->
    Logging.createLogger_calls es st =
      (repeat (Logging.Returned l) (length es), st).
Proof.
  induction es as [|e es IH]; intros st H; simpl; [reflexivity|].
  rewrite (createLogger_existing e st l H), (IH st H). reflexivity.
Qed.

Lemma createLogger_throws (e : Logging.env) (st : Logging.state) :
  Logging.logger st = None ->
  Logging.can_create e = None ->
  Logging.createLogger e st = (Logging.Threw, st).
Proof.
  unfold Logging.createLogger, Logging.can_create. intros -> H.
  destruct (Logging.homedir e) as [home|]; [|reflexivity].
  cbn zeta in *.
  destruct (Logging.file_transport e _); [discriminate | reflexivity].
Qed.

Lemma createLogger_calls_throw (es : list Logging.env) (st : Logging.state) :
  Logging.logger st = None ->
  Forall (fun e => Logging.can_create e = None) es ->
  Logging.createLogger_calls es st = (repeat Logging.Threw (length es), st).
Proof.
  intros Hst Hes. induction Hes as [|e es He _ IH]; simpl; [reflexivity|].
  rewrite (createLogger_throws e st Hst He), IH. reflexivity.
Qed.

Lemma createLogger_calls_app (es1 es2 : list Logging.env) :
  forall st,
    Logging.createLogger_calls (es1 ++ es2) st =
    let (rs1, st1) := Logging.createLogger_calls es1 st in
    let (rs2, st2) := Logging.createLogger_calls es2 st1 in
    (rs1 ++ rs2, st2).
Proof.
  induction es1 as [|e es1 IH]; intros st; simpl.
  - destruct (Logging.createLogger_calls es2 st); reflexivity.
  - destruct (Logging.createLogger e st) as [r st1]. rewrite IH.
    destruct (Logging.createLogger_calls es1 st1) as [rs1 st2].
    destruct (Logging.createLogger_calls es2 st2); reflexivity.
Qed.

(** X11 (one logger).  Start with no logger and call [createLogger] any
    number of times, each call in the environment of its moment.  As long as
    [os.homedir()] or the file transport throws, the call throws and leaves
    no logger, no object built and no line written; nothing is caught.  The
    first call that gets through builds the one logger object, of level
    'info' on 'cli-runner.log' joined to the home directory of that call, and
    hands one line to its file, '[info] Logger initialized: ' followed by the
    file name.  Every later call returns that same object, whatever its
    environment, and writes nothing. *)
Theorem createLogger_singleton (st : Logging.state) :
  Logging.logger st = None ->
  (forall es,
      Forall (fun e => Logging.can_create e = None) es ->
      Logging.createLogger_calls es st =
        (repeat Logging.Threw (length es), st)) /\
  (forall pre e post logFile,
      Forall (fun e' => Logging.can_create e' = None) pre ->
      Logging.can_create e = Some logFile ->
      Logging.createLogger_calls (pre ++ e :: post) st =
        (repeat Logging.Threw (length pre) ++
         repeat (Logging.Returned
                   {| Logging.logger_id := Logging.instances st;
                      Logging.level := "info";
                      Logging.filename := logFile |})
                (S (length post)),
         {| Logging.logger :=
              Some {| Logging.logger_id := Logging.instances st;
                      Logging.level := "info";
                      Logging.filename := logFile |};
            Logging.instances := S (Logging.instances st);
            Logging.written :=
              Logging.written st ++
              [(logFile, ("[info] Logger initialized: " ++ logFile)%string)] |})).
Proof.
  intros Hst. split.
  - intros es Hes. exact (createLogger_calls_throw es st Hst Hes).
  - intros pre e post logFile Hpre He.
    rewrite createLogger_calls_app, (createLogger_calls_throw pre st Hst Hpre).
    cbn [Logging.createLogger_calls].
    assert (Hcreate :
              Logging.createLogger e st =
              (Logging.Returned
                 {| Logging.logger_id := Logging.instances st;
                    Logging.level := "info";
                    Logging.filename := logFile |},
               {| Logging.logger :=
                    Some {| Logging.logger_id := Logging.instances st;
                            Logging.level := "info";
                            Logging.filename := logFile |};
                  Logging.instances := S (Logging.instances st);
                  Logging.written :=
                    Logging.written st ++
                    [(logFile,
                      ("[info] Logger initialized: " ++ logFile)%string)] |})).
    { unfold Logging.createLogger, Logging.can_create in *. rewrite Hst.
      destruct (Logging.homedir e) as [home|]; [|discriminate].
      cbn zeta in *.
      destruct (Logging.file_transport e _); [|discriminate].
      injection He as <-. reflexivity. }
    rewrite Hcreate.
    erewrite createLogger_calls_existing by reflexivity. reflexivity.
Qed.

(** A first call while the home directory is not usable, then two calls that
    get through, the last with another home directory. *)
Lemma createLogger_singleton_witness :
  Logging.createLogger_calls
    ([ {| Logging.homedir := Some "/nowhere";
          Logging.path_join := fun a b => (a ++ "/" ++ b)%string;
          Logging.file_transport := fun _ => false |} ] ++
     {| Logging.homedir := Some "/home/me";
        Logging.path_join := fun a b => (a ++ "/" ++ b)%string;
        Logging.file_transport := fun _ => true |} ::
     [ {| Logging.homedir := Some "/home/you";
          Logging.path_join := fun a b => (a ++ "/" ++ b)%string;
          Logging.file_transport := fun _ => true |} ])
    Logging.initial =
  (repeat Logging.Threw 1 ++
   repeat (Logging.Returned
             {| Logging.logger_id := 0; Logging.level := "info";
                Logging.filename := "/home/me/cli-runner.log" |}) 2,
   {| Logging.logger :=
        Some {| Logging.logger_id := 0; Logging.level := "info";
                Logging.filename := "/home/me/cli-runner.log" |};
      Logging.instances := 1;
      Logging.written :=
        [] ++ [("/home/me/cli-runner.log",
                "[info] Logger initialized: /home/me/cli-runner.log")] |}).
Proof.
  destruct (createLogger_singleton Logging.initial eq_refl) as [_ H].
  apply (H [ {| Logging.homedir := Some "/nowhere";
                Logging.path_join := fun a b => (a ++ "/" ++ b)%string;
                Logging.file_transport := fun _ => false |} ]
           {| Logging.homedir := Some "/home/me";
              Logging.path_join := fun a b => (a ++ "/" ++ b)%string;
              Logging.file_transport := fun _ => true |}
           [ {| Logging.homedir := Some "/home/you";
                Logging.path_join := fun a b => (a ++ "/" ++ b)%string;
                Logging.file_transport := fun _ => true |} ]
           "/home/me/cli-runner.log").
  - repeat constructor.
  - reflexivity.
Defined.
